(** * hydrafloods.datasets: dataset wrappers over Earth Engine collections

    The Python module wraps [ee.ImageCollection] handles in [Dataset] objects.
    Every call on an [ee] object is a call into the Earth Engine service, so
    the development has three layers:

    - [ee]: the Earth Engine calls the module makes.  Collections are lists
      of images, an image is its property dictionary, its footprint and its
      pixel data.  Filtering, joining, sorting and merging are written out on
      lists, as the service documents them; the raster, geometry and
      calendar algebra is an interface ([ee.Service]).
    - [decorators], [geeutils]: helpers of the package that live in other
      files; they are an interface as well ([Helpers]).
    - [Dataset], [Sentinel1], ...: the classes of [datasets.py], method by
      method, in a monad over the Python object store.  A Python function
      given to [map] is called by the client when the expression is built,
      so it can raise there ([Traced]).  [__repr__] is left out: it only
      formats strings. *)

From Stdlib Require Import ZArith QArith Qabs Qround List String Bool Lia Sorted Permutation.
From stdpp Require Import gmap strings.

Set Warnings "-register-all".
#[local] Open Scope string_scope.
#[local] Open Scope list_scope.
#[local] Open Scope Z_scope.

(* ================================================================== *)
(** * The Earth Engine calls used by the module *)
(* ================================================================== *)

Module ee.

(** Opaque carriers of the service: geometries, rasters and reducer objects. *)
Class Carrier : Type := {
  Geom : Type;
  Pixels : Type;
  ReducerObj : Type;
}.

Section Types.
Context {C : Carrier}.

(** Property values, and images.  [VImages] is what [ee.Join.saveAll] stores:
    the list of matching elements. *)
Inductive Value : Type :=
| VNum (z : Z)
| VStr (s : string)
| VList (l : list Value)
| VImages (l : list Image)
with Image : Type :=
| MkImage (properties : gmap string Value) (geo : Geom) (pixels : Pixels).

Definition properties (img : Image) : gmap string Value :=
  match img with MkImage p _ _ => p end.
Definition geo (img : Image) : Geom :=
  match img with MkImage _ g _ => g end.
Definition pixels (img : Image) : Pixels :=
  match img with MkImage _ _ px => px end.

(** A feature holding only a geometry (all that [union] and [geometry] read). *)
Record Feature : Type := MkFeature { feature_geo : Geom }.

(** [reducer (str | ee.Reducer)]. *)
Inductive Reducer : Type :=
| ReducerName (name : string)
| ReducerOf (r : ReducerObj).

(** A Python value accepted where Earth Engine expects a date. *)
Inductive DateArg : Type :=
| DateStr (s : string)          (* "2019-01-01" *)
| DateMillis (ms : Z).          (* datetime.datetime, ee.Date, a number *)

End Types.

(** The raster, geometry and calendar operations of the service. *)
Class Service (C : Carrier) : Type := {
  (* ee.ImageCollection(asset_id): the images of a named collection *)
  ImageCollection : string -> list Image;
  (* ee.Date(str).millis() and ee.Date(ms).format(pattern) *)
  Date_parse : string -> Z;
  Date_format : Z -> string -> string;
  (* geometry *)
  Geometry_intersects : Geom -> Geom -> option Z -> bool;
  Geometry_intersection : Geom -> Geom -> Z -> Geom;
  FeatureCollection_union : list Feature -> Z -> list Feature;
  FeatureCollection_geometry : list Feature -> Z -> Geom;
  (* images *)
  Image_constant : list Q -> Image;
  Image_select : Image -> list string -> Image;
  Image_select_as : Image -> list string -> list string -> Image;
  Image_rename : Image -> list string -> Image;
  Image_multiply : Image -> Image -> Image;
  Image_add : Image -> Image -> Image;
  Image_lt : Image -> Image -> Image;
  Image_gt : Image -> Image -> Image;
  Image_lte : Image -> Image -> Image;
  Image_gte : Image -> Image -> Image;
  Image_eq : Image -> Image -> Image;
  Image_And : Image -> Image -> Image;
  Image_Not : Image -> Image;
  Image_abs : Image -> Image;
  Image_updateMask : Image -> Image -> Image;
  Image_clip : Image -> Geom -> Image;
  Image_addBands : Image -> Image -> Image;
  Pixels_bandNames : Pixels -> list string;
  (* the band names of the image made of no element: the answer of
     ee.Image(c.first()).bandNames() when c has no image *)
  bandNames_of_none : list string;
  (* collections to images *)
  ImageCollection_mosaic : list Image -> Image;
  ImageCollection_reduce : list Image -> Reducer -> Image;
}.

Section Calls.
Context {C : Carrier} {S : Service C}.

(** A Python number where an image is expected: [angles.lt(45)]. *)
Definition num (q : Q) : Image := Image_constant [q].

(** ** Properties *)

Definition Image_get (img : Image) (key : string) : option Value :=
  properties img !! key.

(** [img.set(key, value)]; a null value leaves the property absent. *)
Definition Image_set (img : Image) (key : string) (value : option Value) : Image :=
  match value with
  | Some v => MkImage (<[key := v]> (properties img)) (geo img) (pixels img)
  | None => MkImage (delete key (properties img)) (geo img) (pixels img)
  end.

Definition Image_geometry (img : Image) (maxError : Z) : Geom := geo img.

Definition Image_bandNames (img : Image) : list string :=
  Pixels_bandNames (pixels img).

(** The numeric value of a property, when it has one. *)
Definition number_of (img : Image) (key : string) : option Z :=
  match Image_get img key with
  | Some (VNum z) => Some z
  | _ => None
  end.

(** ** Dates *)

Definition Date (d : DateArg) : Z :=
  match d with
  | DateStr s => Date_parse s
  | DateMillis ms => ms
  end.

(** [ee.Date(x)] for a property value [x] read from the service. *)
Definition Date_of_value (v : Value) : Z :=
  match v with
  | VNum z => z
  | VStr s => Date_parse s
  | _ => 0
  end.

Definition millis_per_day : Z := 1000 * 60 * 60 * 24.

(** [t.advance(delta, "day")] (UTC days have no gaps). *)
Definition Date_advance (t : Z) (delta : Z) : Z := t + delta * millis_per_day.

(** ** Filters *)

(** A filter on one element, and a join condition on a pair. *)
Definition Filter1 : Type := Image -> bool.
Definition Filter2 : Type := Image -> Image -> bool.

Definition value_eqb_str (v : Value) (s : string) : bool :=
  match v with
  | VStr s' => String.eqb s' s
  | _ => false
  end.

(** [ee.Filter.listContains(leftField, rightValue)] for a string value. *)
Definition Filter_listContains (leftField : string) (rightValue : string) : Filter1 :=
  fun img =>
    match Image_get img leftField with
    | Some (VList l) => existsb (fun v => value_eqb_str v rightValue) l
    | _ => false
    end.

(** [ee.Filter.maxDifference(difference, leftField, rightField)]: both
    operands are numbers and are within [difference] of each other. *)
Definition Filter_maxDifference (difference : Z) (leftField rightField : string) : Filter2 :=
  fun l r =>
    match number_of l leftField, number_of r rightField with
    | Some a, Some b => Z.abs (a - b) <=? difference
    | _, _ => false
    end.

(** The geometry a field name denotes: [".geo"] is the element's footprint. *)
Definition field_geometry (img : Image) (field : string) : option Geom :=
  if String.eqb field ".geo" then Some (geo img) else None.

(** [ee.Filter.intersects(leftField, rightField, maxError)]. *)
Definition Filter_intersects (leftField rightField : string) (maxError : Z) : Filter2 :=
  fun l r =>
    match field_geometry l leftField, field_geometry r rightField with
    | Some a, Some b => Geometry_intersects a b (Some maxError)
    | _, _ => false
    end.

Definition Filter_And (f g : Filter2) : Filter2 :=
  fun l r => f l r && g l r.

(** ** Collections *)

Definition filter (c : list Image) (f : Filter1) : list Image := List.filter f c.

(** [c.filterBounds(geometry)]: the elements whose footprint meets it. *)
Definition filterBounds (c : list Image) (geometry : Geom) : list Image :=
  List.filter (fun img => Geometry_intersects (geo img) geometry None) c.

(** [c.filterDate(start, end)]: [start <= system:time_start < end]. *)
Definition in_range (t1 t2 : Z) (img : Image) : bool :=
  match number_of img "system:time_start" with
  | Some t => (t1 <=? t) && (t <? t2)
  | None => false
  end.

Definition filterDate (c : list Image) (t1 t2 : Z) : list Image :=
  List.filter (in_range t1 t2) c.

Definition map (c : list Image) (f : Image -> Image) : list Image := List.map f c.

Definition map_features (c : list Image) (f : Image -> Feature) : list Feature :=
  List.map f c.

(** [c.select(old, new)]: on every image. *)
Definition select (c : list Image) (selectors names : list string) : list Image :=
  List.map (fun img => Image_select_as img selectors names) c.

(** [c1.merge(c2)]: all the elements of both collections; the id of an
    element ([system:index]) is prefixed with ["1_"] in the first collection
    and with ["2_"] in the second. *)
Definition prefix_id (prefix : string) (img : Image) : Image :=
  match Image_get img "system:index" with
  | Some (VStr id) =>
      Image_set img "system:index" (Some (VStr (String.append prefix id)))
  | _ => img
  end.

Definition merge (c1 c2 : list Image) : list Image :=
  List.map (prefix_id "1_") c1 ++ List.map (prefix_id "2_") c2.

Definition first (c : list Image) : option Image := List.head c.

(** [ee.Image(x).bandNames()] for the result [x] of [first()]; a collection
    without images has none, and the answer is left to the service. *)
Definition bandNames_of_first (x : option Image) : list string :=
  match x with
  | Some img => Image_bandNames img
  | None => bandNames_of_none
  end.

Definition fromImages (v : option Value) : list Image :=
  match v with
  | Some (VImages l) => l
  | _ => []
  end.

(** [c.aggregate_array(key)]: the values of the elements that have one. *)
Definition aggregate_array (c : list Image) (key : string) : list Value :=
  omap (fun img => Image_get img key) c.

(** [l.distinct()], first occurrences kept. *)
Fixpoint distinct (l : list string) : list string :=
  match l with
  | [] => []
  | x :: r => x :: List.filter (fun y => negb (String.eqb x y)) (distinct r)
  end.

(** [c.sort(key)], ascending; elements without a number under [key] come
    first.  Insertion from the right keeps equal keys in their order. *)
Definition key_leb (a b : option Z) : bool :=
  match a, b with
  | None, _ => true
  | Some _, None => false
  | Some x, Some y => x <=? y
  end.

Fixpoint insert_by (key : string) (x : Image) (l : list Image) : list Image :=
  match l with
  | [] => [x]
  | y :: r =>
      if key_leb (number_of x key) (number_of y key)
      then x :: y :: r
      else y :: insert_by key x r
  end.

Definition sort (c : list Image) (key : string) : list Image :=
  List.fold_right (insert_by key) [] c.

(** [ee.Join.saveAll(matchesKey).apply(primary, secondary, condition)]:
    every primary element with at least one match, the matches stored under
    [matchesKey]. *)
Definition matches (condition : Filter2) (secondary : list Image) (p : Image) : list Image :=
  List.filter (condition p) secondary.

Definition Join_saveAll (matchesKey : string)
    (primary secondary : list Image) (condition : Filter2) : list Image :=
  List.map
    (fun p => Image_set p matchesKey (Some (VImages (matches condition secondary p))))
    (List.filter
       (fun p => negb (Nat.eqb (length (matches condition secondary p)) 0))
       primary).

(** [ee.Algorithms.If(condition, trueCase, falseCase)] on a Python bool. *)
Definition Algorithms_If {A : Type} (condition : bool) (trueCase falseCase : A) : A :=
  if condition then trueCase else falseCase.

End Calls.
End ee.

(* ================================================================== *)
(** * Helpers of the package defined in other files *)
(* ================================================================== *)

(** [hydrafloods.decorators.carry_metadata] and
    [hydrafloods.geeutils.extract_bits] / [get_geoms] are imported by
    [datasets.py]; their bodies are not part of it.  The decorator acts on
    the function of the image argument (a receiver is bound first). *)
Class Helpers (C : ee.Carrier) : Type := {
  carry_metadata : (ee.Image -> ee.Image) -> ee.Image -> ee.Image;
  extract_bits : ee.Image -> Z -> option Z -> option string -> ee.Image;
  get_geoms : ee.Image -> ee.Feature;
}.

(* ================================================================== *)
(** * Python objects *)
(* ================================================================== *)

(** The exceptions: [AttributeError], and any other class by its name. *)
Inductive Exn : Type :=
| AttributeError (msg : string)
| Exception (kind msg : string).

(** A lookup of an attribute that a class may or may not define. *)
Inductive Event : Type :=
| GetAttr (obj : nat) (name : string).

Section Objects.
Context {C : ee.Carrier}.

(** What [c.map(f)] makes of a Python function [f]: the client calls [f]
    once, on a placeholder image, to build the expression that the service
    then applies to every image.  That call either builds the mapped
    function or raises. *)
Inductive Traced : Type :=
| Builds (f : ee.Image -> ee.Image)
| Fails (e : Exn).

(** What the module reads from a class: its name and its [qa] method, as
    the bound method [self.qa] behaves under [map]. *)
Record PyClass : Type := {
  __name__ : string;
  class_qa : option (nat -> Traced);
}.

(** The attributes of an instance of [Dataset] or of a subclass.  [gain]
    and [bias] exist only after a constructor has set them. *)
Record Dataset : Type := {
  __class__ : PyClass;
  region : ee.Geom;
  start_time : ee.DateArg;
  end_time : ee.DateArg;
  asset_id : string;
  use_qa : bool;
  BANDREMAP : gmap string (list string);
  _collection : list ee.Image;
  gain : option ee.Image;
  bias : option ee.Image;
}.

Definition with_collection (d : Dataset) (value : list ee.Image) : Dataset :=
  {| __class__ := __class__ d; region := region d; start_time := start_time d;
     end_time := end_time d; asset_id := asset_id d; use_qa := use_qa d;
     BANDREMAP := BANDREMAP d; _collection := value;
     gain := gain d; bias := bias d |}.

Definition with_gain (d : Dataset) (value : ee.Image) : Dataset :=
  {| __class__ := __class__ d; region := region d; start_time := start_time d;
     end_time := end_time d; asset_id := asset_id d; use_qa := use_qa d;
     BANDREMAP := BANDREMAP d; _collection := _collection d;
     gain := Some value; bias := bias d |}.

Definition with_bias (d : Dataset) (value : ee.Image) : Dataset :=
  {| __class__ := __class__ d; region := region d; start_time := start_time d;
     end_time := end_time d; asset_id := asset_id d; use_qa := use_qa d;
     BANDREMAP := BANDREMAP d; _collection := _collection d;
     gain := gain d; bias := Some value |}.

(** The object store, and the log of optional-method lookups. *)
Record World : Type := {
  heap : gmap nat Dataset;
  log : list Event;
}.

Inductive Outcome (A : Type) : Type :=
| Returns (a : A) (w : World)
| Raises (e : Exn) (w : World).
#[global] Arguments Returns {A} a w.
#[global] Arguments Raises {A} e w.

Definition Py (A : Type) : Type := World -> Outcome A.

Definition ret {A : Type} (a : A) : Py A := fun w => Returns a w.

Definition bind {A B : Type} (m : Py A) (k : A -> Py B) : Py B :=
  fun w =>
    match m w with
    | Returns a w' => k a w'
    | Raises e w' => Raises e w'
    end.

Definition raise {A : Type} (e : Exn) : Py A := fun w => Raises e w.

(** [try: body except AttributeError: handler]. *)
Definition try_except_AttributeError {A : Type} (body handler : Py A) : Py A :=
  fun w =>
    match body w with
    | Returns a w' => Returns a w'
    | Raises (AttributeError _) w' => handler w'
    | Raises (Exception kind msg) w' => Raises (Exception kind msg) w'
    end.

End Objects.

(** [x ← m; k] and [m;; k] are stdpp's notations for [bind]. *)
#[global] Instance Py_ret {C : ee.Carrier} : MRet Py := @ret C.
#[global] Instance Py_bind {C : ee.Carrier} : MBind Py :=
  fun A B k m => bind m k.

Section Attributes.
Context {C : ee.Carrier}.

(** [self.name] for an instance attribute. *)
Definition getattr {A : Type} (self : nat) (name : string)
    (field : Dataset -> option A) : Py A :=
  fun w =>
    match heap w !! self with
    | Some d =>
        match field d with
        | Some a => Returns a w
        | None => Raises (AttributeError name) w
        end
    | None => Raises (AttributeError name) w
    end.

(** [self.name = value] on an initialised object. *)
Definition setattr (self : nat) (name : string)
    (update : Dataset -> Dataset) : Py unit :=
  fun w =>
    match heap w !! self with
    | Some d => Returns tt {| heap := <[self := update d]> (heap w); log := log w |}
    | None => Raises (AttributeError name) w
    end.

(** An attribute of the object [old] that [self] already is, if it is one. *)
Definition kept {A : Type} (field : Dataset -> option A) (old : option Dataset)
    : option A :=
  match old with
  | Some d => field d
  | None => None
  end.

(** The assignments [__init__] makes before it builds the collection, on
    an object that already has its attributes.  A new object is entered in
    the store by [init_attrs], when it has them all: until [__init__]
    returns nothing else holds a reference to it. *)
Definition begin_attrs (self : nat) (update : Dataset -> Dataset) : Py unit :=
  fun w =>
    Returns tt
      {| heap :=
           match heap w !! self with
           | Some d => <[self := update d]> (heap w)
           | None => heap w
           end;
         log := log w |}.

(** The last assignment of [__init__], [self.collection = imgcollection]:
    [assigned] gives the attributes from the object as it was ([None] for a
    new object), so that attributes [__init__] does not assign stay as they
    were. *)
Definition init_attrs (self : nat) (assigned : option Dataset -> Dataset)
    : Py unit :=
  fun w =>
    Returns tt
      {| heap := <[self := assigned (heap w !! self)]> (heap w); log := log w |}.

(** [self.qa]: found on the class or not at all; the lookup is logged. *)
Definition getattr_qa (cls : PyClass) (self : nat) : Py Traced :=
  fun w =>
    let w' := {| heap := heap w; log := log w ++ [GetAttr self "qa"] |} in
    match class_qa cls with
    | Some qa => Returns (qa self) w'
    | None => Raises (AttributeError "qa") w'
    end.

(** [c.map(f)] for a Python function [f]. *)
Definition map_traced (c : list ee.Image) (f : Traced) : Py (list ee.Image) :=
  match f with
  | Builds g => ret (ee.map c g)
  | Fails e => raise e
  end.

(** A new object holding the attributes [d]. *)
Definition alloc (d : Dataset) : Py nat :=
  fun w =>
    let l := fresh (dom (heap w)) in
    Returns l {| heap := <[l := d]> (heap w); log := log w |}.

(** [Cls(...)]: a new object, then [__init__] on it. *)
Definition new (init : nat -> Py unit) : Py nat :=
  fun w =>
    let self := fresh (dom (heap w)) in
    (init self;; ret self) w.

(** [c.map(self.method)] for a method that reads attributes of [self]. *)
Fixpoint map_method (c : list ee.Image) (f : ee.Image -> Py ee.Image) : Py (list ee.Image) :=
  match c with
  | [] => ret []
  | img :: r => img' ← f img; r' ← map_method r f; ret (img' :: r')
  end.

End Attributes.

(* ================================================================== *)
(** * class Dataset *)
(* ================================================================== *)

Module Dataset.
Section Methods.
Context {C : ee.Carrier} {S : ee.Service C} {H : Helpers C}.

(** The dictionary assigned to [self.BANDREMAP]. *)
Definition BANDREMAP_table : gmap string (list string) :=
  list_to_map
    [ ("landsat7", ["B1"; "B2"; "B3"; "B4"; "B5"; "B7"]);
      ("landsat8", ["B2"; "B3"; "B4"; "B5"; "B6"; "B7"]);
      ("viirs", ["M2"; "M4"; "I1"; "I2"; "I3"; "M11"]);
      ("sen2", ["B2"; "B3"; "B4"; "B8"; "B11"; "B12"]);
      ("modis", ["sur_refl_b03"; "sur_refl_b04"; "sur_refl_b01";
                 "sur_refl_b02"; "sur_refl_b06"; "sur_refl_b07"]);
      ("new", ["blue"; "green"; "red"; "nir"; "swir1"; "swir2"]) ].

(** [self.BANDREMAP.get(key)]. *)
Definition BANDREMAP_get (self : nat) (key : string) : Py (list string) :=
  getattr self "BANDREMAP" (fun d => BANDREMAP d !! key).

Definition qa_not_defined : string :=
  "qa() method is not defined...please define one or set `use_qa` to False".

(** [__init__(self, region, start_time, end_time, asset_id, use_qa=False)];
    [cls] is the class of [self]. *)
Definition __init__ (cls : PyClass) (self : nat) (region : ee.Geom)
    (start_time end_time : ee.DateArg) (asset_id : string) (use_qa : bool)
    : Py unit :=
  let imgcollection :=
    ee.filterDate
      (ee.filterBounds (ee.ImageCollection asset_id) region)
      (ee.Date start_time) (ee.Date end_time) in
  begin_attrs self
    (fun d =>
       {| __class__ := __class__ d; region := region; start_time := start_time;
          end_time := end_time; asset_id := asset_id; use_qa := use_qa;
          BANDREMAP := BANDREMAP_table; _collection := _collection d;
          gain := gain d; bias := bias d |});;
  imgcollection ←
    (if use_qa then
       try_except_AttributeError
         (qa ← getattr_qa cls self; map_traced imgcollection qa)
         (raise (AttributeError qa_not_defined))
     else ret imgcollection);
  init_attrs self
    (fun old =>
       {| __class__ := cls; region := region; start_time := start_time;
          end_time := end_time; asset_id := asset_id; use_qa := use_qa;
          BANDREMAP := BANDREMAP_table; _collection := imgcollection;
          gain := kept gain old; bias := kept bias old |}).

(** The [collection] property and its setter. *)
Definition collection (self : nat) : Py (list ee.Image) :=
  getattr self "_collection" (fun d => Some (_collection d)).

Definition set_collection (self : nat) (value : list ee.Image) : Py unit :=
  setattr self "_collection" (fun d => with_collection d value).

(** The properties [n_images] and [dates] ([getInfo] returns the value). *)
Definition n_images (self : nat) : Py nat :=
  c ← collection self;
  ret (length c).

Definition dates (self : nat) : Py (list string) :=
  c ← collection self;
  ret (List.map
         (fun x => ee.Date_format (ee.Date_of_value x) "YYYY-MM-dd HH:mm:ss.SSS")
         (ee.aggregate_array c "system:time_start")).

(** [copy.deepcopy(self)]: a new object with the same attribute values. *)
Definition copy (self : nat) : Py nat :=
  d ← getattr self "__dict__" (fun d => Some d);
  alloc d.

(** [apply_func(self, func, inplace=False, *args, **kwargs)]; [kwargs] are
    bound into [func] by [partial], the extra positional [args] are unused. *)
Definition apply_func {K : Type} (self : nat) (func : ee.Image -> K -> ee.Image)
    (inplace : bool) (kwargs : K) : Py (option nat) :=
  let func := fun img => func img kwargs in
  if inplace then
    c ← collection self;
    set_collection self (ee.map c func);;
    ret None
  else
    outCls ← copy self;
    c ← collection self;
    set_collection outCls (ee.map c func);;
    ret (Some outCls).

Definition clip_to_region (self : nat) (inplace : bool) : Py (option nat) :=
  region ← getattr self "region" (fun d => Some (region d));
  let clip := carry_metadata (fun img => ee.Image_clip img region) in
  if inplace then
    c ← collection self;
    set_collection self (ee.map c clip);;
    ret None
  else
    outCls ← copy self;
    c ← collection self;
    set_collection outCls (ee.map c clip);;
    ret (Some outCls).

Definition merge (self dataset : nat) (inplace : bool) : Py (option nat) :=
  c1 ← collection self;
  c2 ← collection dataset;
  let merged := ee.sort (ee.merge c1 c2) "system:time_start" in
  if inplace then
    set_collection self merged;;
    ret None
  else
    outCls ← copy self;
    set_collection outCls merged;;
    ret (Some outCls).

(** The closure [_merge] of [join], for the property name [key]. *)
Definition _merge (key : string) (img : ee.Image) : ee.Image :=
  let join_coll := ee.fromImages (ee.Image_get img key) in
  let img_geom := ee.Image_geometry img 100 in
  let join_geom :=
    ee.FeatureCollection_geometry
      (ee.FeatureCollection_union (ee.map_features join_coll get_geoms) 100) 100 in
  let overlap := ee.Geometry_intersection img_geom join_geom 100 in
  let join_data := ee.ImageCollection_mosaic join_coll in
  ee.Image_clip (ee.Image_addBands img join_data) overlap.

Definition join_filter : ee.Filter2 :=
  ee.Filter_And
    (ee.Filter_maxDifference (1000 * 60 * 60 * 24)
       "system:time_start" "system:time_start")
    (ee.Filter_intersects ".geo" ".geo" 100).

Definition join (self dataset : nat) (inplace : bool) : Py (option nat) :=
  key ← getattr dataset "__class__" (fun d => Some (__name__ (__class__ d)));
  c1 ← collection self;
  c2 ← collection dataset;
  let joined := ee.Join_saveAll key c1 c2 join_filter in
  let joined := ee.map joined (_merge key) in
  if inplace then
    set_collection self joined;;
    ret None
  else
    outCls ← copy self;
    set_collection outCls joined;;
    ret (Some outCls).

(** The closure [_aggregation] of [aggregate_time]. *)
Definition _aggregation (c : list ee.Image) (period : Z) (reducer : ee.Reducer)
    (clip_to_area : bool) (band_names : list string) (d : string) : ee.Image :=
  let t1 := ee.Date (ee.DateStr d) in
  let t2 := ee.Date_advance t1 period in
  let img :=
    ee.Image_set
      (ee.Image_rename
         (ee.ImageCollection_reduce (ee.filterDate c t1 t2) reducer)
         band_names)
      "system:time_start" (Some (ee.VNum t1)) in
  let geom :=
    ee.FeatureCollection_geometry
      (ee.FeatureCollection_union
         (ee.map_features (ee.filterDate c t1 t2) get_geoms) 100) 100 in
  ee.Algorithms_If clip_to_area (ee.Image_clip img geom) img.

(** The dates used when [dates is None]. *)
Definition collection_dates (c : list ee.Image) : list string :=
  ee.distinct
    (List.map (fun x => ee.Date_format (ee.Date_of_value x) "YYYY-MM-dd")
       (ee.aggregate_array c "system:time_start")).

(** [aggregate_time(self, dates=None, period=1, reducer="mean",
    clip_to_area=False, inplace=False)]. *)
Definition aggregate_time (self : nat) (dates : option (list string))
    (period : Z) (reducer : ee.Reducer) (clip_to_area inplace : bool)
    : Py (option nat) :=
  c ← collection self;
  let dates :=
    match dates with
    | None => collection_dates c
    | Some dates => dates
    end in
  let band_names := ee.bandNames_of_first (ee.first c) in
  let out_coll :=
    List.map (_aggregation c period reducer clip_to_area band_names) dates in
  if inplace then
    set_collection self out_coll;;
    ret None
  else
    outCls ← copy self;
    set_collection outCls out_coll;;
    ret (Some outCls).

(** The defaults of [aggregate_time]: [period=1], [reducer="mean"]. *)
Definition default_period : Z := 1.
Definition default_reducer : ee.Reducer := ee.ReducerName "mean".

(** The body of [band_pass_adjustment], under the decorator. *)
Definition band_pass_adjustment_body (gain bias img : ee.Image) : ee.Image :=
  ee.Image_set
    (ee.Image_add (ee.Image_multiply img gain) bias)
    "system:time_start" (ee.Image_get img "system:time_start").

Definition band_pass_adjustment (self : nat) (img : ee.Image) : Py ee.Image :=
  gain ← getattr self "gain" gain;
  bias ← getattr self "bias" bias;
  ret (carry_metadata (band_pass_adjustment_body gain bias) img).

(** The class itself: it defines no [qa]. *)
Definition cls : PyClass := {| __name__ := "Dataset"; class_qa := None |}.

End Methods.
End Dataset.

(* ================================================================== *)
(** * The sensor classes *)
(* ================================================================== *)

(** Each constructor has the signature
    [__init__(self, *args, asset_id=..., use_qa=True, **kwargs)] with
    [args = (region, start_time, end_time)]; the defaults are
    [default_asset_id] and [true]. *)

Module Sentinel1.
Section Methods.
Context {C : ee.Carrier} {S : ee.Service C} {H : Helpers C}.

Definition default_asset_id : string := "COPERNICUS/S1_GRD".

Definition qa_body (img : ee.Image) : ee.Image :=
  let angles := ee.Image_select img ["angle"] in
  ee.Image_updateMask img
    (ee.Image_And (ee.Image_lt angles (ee.num 45)) (ee.Image_gt angles (ee.num 30))).

Definition qa (self : nat) : ee.Image -> ee.Image := carry_metadata qa_body.

Definition cls : PyClass :=
  {| __name__ := "Sentinel1"; class_qa := Some (fun self => Builds (qa self)) |}.

Definition __init__ (self : nat) (region : ee.Geom)
    (start_time end_time : ee.DateArg) (asset_id : string) (use_qa : bool)
    : Py unit :=
  Dataset.__init__ cls self region start_time end_time asset_id use_qa;;
  c ← Dataset.collection self;
  Dataset.set_collection self
    (ee.filter c (ee.Filter_listContains "transmitterReceiverPolarisation" "VH")).

End Methods.
End Sentinel1.

Module Viirs.
Section Methods.
Context {C : ee.Carrier} {S : ee.Service C} {H : Helpers C}.

Definition default_asset_id : string := "NOAA/VIIRS/001/VNP09GA".

Definition qa_body (img : ee.Image) : ee.Image :=
  let cloudMask :=
    ee.Image_lt
      (extract_bits (ee.Image_select img ["QF1"]) 2 (Some 3) (Some "cloud_qa"))
      (ee.num 1) in
  let shadowMask :=
    ee.Image_Not
      (extract_bits (ee.Image_select img ["QF2"]) 3 None (Some "shadow_qa")) in
  let snowMask :=
    ee.Image_Not
      (extract_bits (ee.Image_select img ["QF2"]) 5 None (Some "snow_qa")) in
  let sensorZenith :=
    ee.Image_lt (ee.Image_abs (ee.Image_select img ["SensorZenith"])) (ee.num 6000) in
  let mask := ee.Image_And (ee.Image_And cloudMask shadowMask) sensorZenith in
  ee.Image_updateMask img mask.

Definition qa (self : nat) : ee.Image -> ee.Image := carry_metadata qa_body.

Definition cls : PyClass :=
  {| __name__ := "Viirs"; class_qa := Some (fun self => Builds (qa self)) |}.

Definition gain_coefficients : list Q :=
  [0.68328; 0.66604; 0.78901; 0.95324; 0.98593; 0.88941]%Q.
Definition bias_coefficients : list Q :=
  [0.016728; 0.030814; 0.023199; 0.036571; 0.026923; 0.021615]%Q.

Definition __init__ (self : nat) (region : ee.Geom)
    (start_time end_time : ee.DateArg) (asset_id : string)
    (apply_band_adjustment use_qa : bool) : Py unit :=
  Dataset.__init__ cls self region start_time end_time asset_id use_qa;;
  c ← Dataset.collection self;
  selectors ← Dataset.BANDREMAP_get self "viirs";
  names ← Dataset.BANDREMAP_get self "new";
  let coll := ee.select c selectors names in
  coll ←
    (if apply_band_adjustment then
       setattr self "gain"
         (fun d => with_gain d (ee.Image_constant gain_coefficients));;
       setattr self "bias"
         (fun d => with_bias d
            (ee.Image_multiply (ee.Image_constant bias_coefficients) (ee.num 10000)));;
       map_method coll (Dataset.band_pass_adjustment self)
     else ret coll);
  Dataset.set_collection self coll.

End Methods.
End Viirs.

Module Modis.
Section Methods.
Context {C : ee.Carrier} {S : ee.Service C} {H : Helpers C}.

Definition default_asset_id : string := "MODIS/006/MOD09GA".

Definition qa_body (img : ee.Image) : ee.Image :=
  let qa := ee.Image_select img ["state_1km"] in
  let cloudMask :=
    ee.Image_lt (extract_bits qa 10 (Some 11) (Some "cloud_qa")) (ee.num 1) in
  let shadowMask := ee.Image_Not (extract_bits qa 2 None (Some "shadow_qa")) in
  let snowMask := ee.Image_Not (extract_bits qa 12 None (Some "snow_qa")) in
  let sensorZenith :=
    ee.Image_lt (ee.Image_abs (ee.Image_select img ["SensorZenith"])) (ee.num 6000) in
  let mask :=
    ee.Image_And (ee.Image_And (ee.Image_And cloudMask shadowMask) snowMask)
      sensorZenith in
  ee.Image_updateMask img mask.

Definition qa (self : nat) : ee.Image -> ee.Image := carry_metadata qa_body.

Definition cls : PyClass :=
  {| __name__ := "Modis"; class_qa := Some (fun self => Builds (qa self)) |}.

Definition __init__ (self : nat) (region : ee.Geom)
    (start_time end_time : ee.DateArg) (asset_id : string) (use_qa : bool)
    : Py unit :=
  Dataset.__init__ cls self region start_time end_time asset_id use_qa;;
  c ← Dataset.collection self;
  selectors ← Dataset.BANDREMAP_get self "modis";
  names ← Dataset.BANDREMAP_get self "new";
  Dataset.set_collection self (ee.select c selectors names);;
  Dataset.clip_to_region self true;;
  ret tt.

End Methods.
End Modis.

Module Landsat8.
Section Methods.
Context {C : ee.Carrier} {S : ee.Service C} {H : Helpers C}.

Definition default_asset_id : string := "LANDSAT/LC08/C01/T1_SR".

Definition qa_body (img : ee.Image) : ee.Image :=
  let qa_band := ee.Image_select img ["pixel_qa"] in
  let qaCloud :=
    ee.Image_eq (extract_bits qa_band 5 None (Some "cloud_mask")) (ee.num 0) in
  let qaShadow :=
    ee.Image_eq (extract_bits qa_band 3 None (Some "shadow_mask")) (ee.num 0) in
  let qaSnow :=
    ee.Image_eq (extract_bits qa_band 4 None (Some "snow_mask")) (ee.num 0) in
  let mask := ee.Image_And (ee.Image_And qaCloud qaShadow) qaSnow in
  ee.Image_updateMask img mask.

Definition qa (self : nat) : ee.Image -> ee.Image := carry_metadata qa_body.

Definition cls : PyClass :=
  {| __name__ := "Landsat8"; class_qa := Some (fun self => Builds (qa self)) |}.

Definition __init__ (self : nat) (region : ee.Geom)
    (start_time end_time : ee.DateArg) (asset_id : string) (use_qa : bool)
    : Py unit :=
  Dataset.__init__ cls self region start_time end_time asset_id use_qa;;
  c ← Dataset.collection self;
  selectors ← Dataset.BANDREMAP_get self "landsat8";
  names ← Dataset.BANDREMAP_get self "new";
  Dataset.set_collection self (ee.select c selectors names).

End Methods.
End Landsat8.

Module Landsat7.
Section Methods.
Context {C : ee.Carrier} {S : ee.Service C} {H : Helpers C}.

Definition default_asset_id : string := "LANDSAT/LE07/C01/T1_SR".

Definition qa_body (img : ee.Image) : ee.Image :=
  let qa_band := ee.Image_select img ["pixel_qa"] in
  let qaCloud :=
    ee.Image_eq (extract_bits qa_band 5 None (Some "cloud_mask")) (ee.num 0) in
  let qaShadow :=
    ee.Image_eq (extract_bits qa_band 3 None (Some "shadow_mask")) (ee.num 0) in
  let qaSnow :=
    ee.Image_eq (extract_bits qa_band 4 None (Some "snow_mask")) (ee.num 0) in
  let mask := ee.Image_And qaCloud qaShadow in
  ee.Image_updateMask img mask.

Definition qa (self : nat) : ee.Image -> ee.Image := carry_metadata qa_body.

Definition cls : PyClass :=
  {| __name__ := "Landsat7"; class_qa := Some (fun self => Builds (qa self)) |}.

Definition gain_coefficients : list Q :=
  [0.8474; 0.8483; 0.9047; 0.8462; 0.8937; 0.9071]%Q.
Definition bias_coefficients : list Q :=
  [0.0003; 0.0088; 0.0061; 0.0412; 0.0254; 0.0172]%Q.

Definition __init__ (self : nat) (region : ee.Geom)
    (start_time end_time : ee.DateArg) (asset_id : string)
    (apply_band_adjustment use_qa : bool) : Py unit :=
  Dataset.__init__ cls self region start_time end_time asset_id use_qa;;
  c ← Dataset.collection self;
  selectors ← Dataset.BANDREMAP_get self "landsat7";
  names ← Dataset.BANDREMAP_get self "new";
  let coll := ee.select c selectors names in
  coll ←
    (if apply_band_adjustment then
       setattr self "gain"
         (fun d => with_gain d (ee.Image_constant gain_coefficients));;
       setattr self "bias"
         (fun d => with_bias d
            (ee.Image_multiply (ee.Image_constant bias_coefficients) (ee.num 10000)));;
       map_method coll (Dataset.band_pass_adjustment self)
     else ret coll);
  Dataset.set_collection self coll.

End Methods.
End Landsat7.

Module Sentinel2.
Section Methods.
Context {C : ee.Carrier} {S : ee.Service C} {H : Helpers C}.

Definition default_asset_id : string := "COPERNICUS/S2_SR".

Definition qa_body (img : ee.Image) : ee.Image :=
  let sclImg := ee.Image_select img ["SCL"] in
  let mask := ee.Image_And (ee.Image_gte sclImg (ee.num 4)) (ee.Image_lte sclImg (ee.num 6)) in
  ee.Image_updateMask img mask.

Definition qa (self : nat) : ee.Image -> ee.Image := carry_metadata qa_body.

Definition cls : PyClass :=
  {| __name__ := "Sentinel2"; class_qa := Some (fun self => Builds (qa self)) |}.

Definition gain_coefficients : list Q :=
  [0.9778; 1.0053; 0.9765; 0.9983; 0.9987; 1.003]%Q.
Definition bias_coefficients : list Q :=
  [-0.00411; -0.00093; 0.00094; -0.0001; -0.0015; -0.0012]%Q.

Definition __init__ (self : nat) (region : ee.Geom)
    (start_time end_time : ee.DateArg) (asset_id : string)
    (apply_band_adjustment use_qa : bool) : Py unit :=
  Dataset.__init__ cls self region start_time end_time asset_id use_qa;;
  c ← Dataset.collection self;
  selectors ← Dataset.BANDREMAP_get self "sen2";
  names ← Dataset.BANDREMAP_get self "new";
  let coll := ee.select c selectors names in
  coll ←
    (if apply_band_adjustment then
       setattr self "gain"
         (fun d => with_gain d (ee.Image_constant gain_coefficients));;
       setattr self "bias"
         (fun d => with_bias d
            (ee.Image_multiply (ee.Image_constant bias_coefficients) (ee.num 10000)));;
       map_method coll (Dataset.band_pass_adjustment self)
     else ret coll);
  Dataset.set_collection self coll.

End Methods.
End Sentinel2.

(* ================================================================== *)
(** * A small executable service *)
(* ================================================================== *)

(** One instance of the two interfaces, to run the classes on concrete
    inputs: a geometry is a list of grid cells, a raster has one sample per
    band ([None] where masked), a date string is a day number in decimal. *)

Module Sample.

#[global] Instance carrier : ee.Carrier :=
  {| ee.Geom := list Z; ee.Pixels := list (string * option Q); ee.ReducerObj := unit |}.

Definition Band : Type := (string * option Q)%type.

Definition cell_in (g : list Z) (x : Z) : bool := existsb (Z.eqb x) g.

Definition intersects (a b : list Z) (maxError : option Z) : bool :=
  existsb (cell_in b) a.

Definition intersection (a b : list Z) (maxError : Z) : list Z :=
  List.filter (cell_in b) a.

Definition merged_geometry (fs : list ee.Feature) : list Z :=
  List.concat (List.map ee.feature_geo fs).

Definition truth (b : bool) : Q := if b then 1%Q else 0%Q.

(** The sample of [b] that meets band [i] of the left operand. *)
Definition operand (b : list Band) (i : nat) : option Q :=
  match b with
  | [(_, v)] => v
  | _ => match nth_error b i with Some (_, v) => v | None => None end
  end.

Fixpoint zip_bands (f : Q -> Q -> Q) (a b : list Band) (i : nat) : list Band :=
  match a with
  | [] => []
  | (n, v) :: r =>
      (n, match v, operand b i with
          | Some x, Some y => Some (f x y)
          | _, _ => None
          end) :: zip_bands f r b (Datatypes.S i)
  end.

Definition combine (f : Q -> Q -> Q) (v w : option Q) : option Q :=
  match v, w with
  | Some x, Some y => Some (f x y)
  | _, _ => None
  end.

(** The bands of the result are those of the operand with more bands, and
    of the left operand when both have as many. *)
Definition binary_bands (f : Q -> Q -> Q) (a b : list Band) : list Band :=
  if (length a <? length b)%nat then
    match a with
    | [(_, v)] => List.map (fun '(n, w) => (n, combine f v w)) b
    | _ => zip_bands f a b 0
    end
  else zip_bands f a b 0.

Definition binary (f : Q -> Q -> Q) (a b : ee.Image) : ee.Image :=
  ee.MkImage (ee.properties a) (ee.geo a) (binary_bands f (ee.pixels a) (ee.pixels b)).

Definition unary (f : Q -> Q) (a : ee.Image) : ee.Image :=
  ee.MkImage (ee.properties a) (ee.geo a)
    (List.map (fun '(n, v) => (n, option_map f v)) (ee.pixels a)).

Definition find_band (px : list Band) (name : string) : option Q :=
  match List.find (fun '(n, _) => String.eqb n name) px with
  | Some (_, v) => v
  | None => None
  end.

Fixpoint select_bands (px : list Band) (selectors names : list string) : list Band :=
  match selectors, names with
  | s :: selectors', n :: names' => (n, find_band px s) :: select_bands px selectors' names'
  | _, _ => []
  end.

Fixpoint rename_bands (px : list Band) (names : list string) : list Band :=
  match px, names with
  | (_, v) :: px', n :: names' => (n, v) :: rename_bands px' names'
  | _, _ => []
  end.

Definition mask_sample (v m : option Q) : option Q :=
  match v, m with
  | Some x, Some y => if Qeq_bool y 0 then None else Some x
  | _, _ => None
  end.

Fixpoint mask_bands (a m : list Band) (i : nat) : list Band :=
  match a with
  | [] => []
  | (n, v) :: r => (n, mask_sample v (operand m i)) :: mask_bands r m (Datatypes.S i)
  end.

Definition empty_image : ee.Image := ee.MkImage ∅ [] [].

(** The mean of the unmasked samples of one band over the images. *)
Definition samples (c : list ee.Image) (name : string) : list Q :=
  omap (fun img => find_band (ee.pixels img) name) c.

Definition mean (l : list Q) : option Q :=
  match l with
  | [] => None
  | _ => Some (Qred (List.fold_right Qplus 0%Q l / inject_Z (Z.of_nat (length l))))
  end.

Definition reducer_name (r : ee.Reducer) : string :=
  match r with
  | ee.ReducerName n => n
  | ee.ReducerOf _ => "reducer"
  end.

Definition reduce (c : list ee.Image) (r : ee.Reducer) : ee.Image :=
  match c with
  | [] => empty_image
  | img :: _ =>
      ee.MkImage ∅ (List.concat (List.map ee.geo c))
        (List.map
           (fun '(n, _) => (String.append n (String.append "_" (reducer_name r)),
                            mean (samples c n)))
           (ee.pixels img))
  end.

(** Day numbers: ["17"] is day 17 after the epoch. *)
Fixpoint digits (s : string) (acc : Z) : Z :=
  match s with
  | EmptyString => acc
  | String ch r => digits r (10 * acc + (Z.of_nat (Ascii.nat_of_ascii ch) - 48))
  end.

Fixpoint decimal (fuel : nat) (n : Z) (acc : string) : string :=
  match fuel with
  | O => acc
  | Datatypes.S fuel' =>
      let acc' :=
        String (Ascii.ascii_of_nat (Z.to_nat (48 + n mod 10))) acc in
      if n / 10 =? 0 then acc' else decimal fuel' (n / 10) acc'
  end.

Definition parse (s : string) : Z := digits s 0 * ee.millis_per_day.

Definition format (ms : Z) (pattern : string) : string :=
  decimal 20 (ms / ee.millis_per_day) EmptyString.

(** Two Sentinel-1 scenes and two Landsat 8 scenes; the id of a scene is
    its start time in decimal. *)
Definition scene (time : Z) (cells : list Z) (px : list Band)
    (extra : list (string * ee.Value)) : ee.Image :=
  ee.MkImage
    (<["system:time_start" := ee.VNum time]>
       (<["system:index" := ee.VStr (decimal 20 time EmptyString)]>
          (list_to_map extra)))
    cells px.

Definition s1_scene (time : Z) (cells : list Z) (angle : Q) : ee.Image :=
  scene time cells
    [("VV", Some (-8)%Q); ("VH", Some (-15)%Q); ("angle", Some angle)]
    [("transmitterReceiverPolarisation", ee.VList [ee.VStr "VV"; ee.VStr "VH"])].

Definition l8_scene (time : Z) (cells : list Z) (pixel_qa : Q) : ee.Image :=
  scene time cells
    [("B1", Some 300%Q); ("B2", Some 400%Q); ("B3", Some 500%Q);
     ("B4", Some 600%Q); ("B5", Some 2500%Q); ("B6", Some 1500%Q);
     ("B7", Some 800%Q); ("pixel_qa", Some pixel_qa)]
    [].

Definition catalogue (asset_id : string) : list ee.Image :=
  if String.eqb asset_id "COPERNICUS/S1_GRD" then
    [ s1_scene (3 * ee.millis_per_day + 1000) [1; 2] 38%Q;
      s1_scene (5 * ee.millis_per_day) [2; 3] 41%Q ]
  else if String.eqb asset_id "LANDSAT/LC08/C01/T1_SR" then
    [ l8_scene (3 * ee.millis_per_day) [2; 3; 4] 0%Q;
      l8_scene (4 * ee.millis_per_day) [1] 16%Q ]
  else [].

#[global] Instance service : ee.Service carrier := {|
  ee.ImageCollection := catalogue;
  ee.Date_parse := parse;
  ee.Date_format := format;
  ee.Geometry_intersects := intersects;
  ee.Geometry_intersection := intersection;
  ee.FeatureCollection_union := fun fs _ => [ee.MkFeature (merged_geometry fs)];
  ee.FeatureCollection_geometry := fun fs _ => merged_geometry fs;
  ee.Image_constant := fun qs => ee.MkImage ∅ [] (List.map (fun q => ("constant", Some q)) qs);
  ee.Image_select := fun img names =>
    ee.MkImage (ee.properties img) (ee.geo img) (select_bands (ee.pixels img) names names);
  ee.Image_select_as := fun img selectors names =>
    ee.MkImage (ee.properties img) (ee.geo img) (select_bands (ee.pixels img) selectors names);
  ee.Image_rename := fun img names =>
    ee.MkImage (ee.properties img) (ee.geo img) (rename_bands (ee.pixels img) names);
  ee.Image_multiply := binary Qmult;
  ee.Image_add := binary Qplus;
  ee.Image_lt := binary (fun x y => truth (negb (Qle_bool y x)));
  ee.Image_gt := binary (fun x y => truth (negb (Qle_bool x y)));
  ee.Image_lte := binary (fun x y => truth (Qle_bool x y));
  ee.Image_gte := binary (fun x y => truth (Qle_bool y x));
  ee.Image_eq := binary (fun x y => truth (Qeq_bool x y));
  ee.Image_And := binary (fun x y => truth (negb (Qeq_bool x 0) && negb (Qeq_bool y 0)));
  ee.Image_Not := unary (fun x => truth (Qeq_bool x 0));
  ee.Image_abs := unary Qabs.Qabs;
  ee.Image_updateMask := fun img mask =>
    ee.MkImage (ee.properties img) (ee.geo img) (mask_bands (ee.pixels img) (ee.pixels mask) 0);
  ee.Image_clip := fun img g =>
    ee.MkImage (ee.properties img) (intersection (ee.geo img) g 0) (ee.pixels img);
  ee.Image_addBands := fun a b =>
    ee.MkImage (ee.properties a) (ee.geo a) (ee.pixels a ++ ee.pixels b);
  ee.Pixels_bandNames := fun px => List.map fst px;
  ee.bandNames_of_none := [];
  ee.ImageCollection_mosaic := fun c => List.last c empty_image;
  ee.ImageCollection_reduce := reduce;
|}.

(** The flag bits of the integer part of a sample: one bit is left in
    place (the result is 0 or [2^start]); a range takes the bits from
    [start] up to but not including [end], shifted down to bit 0. *)
Definition bits (start : Z) (end_ : option Z) (x : Q) : Q :=
  let one_bit := inject_Z (Z.land (Qfloor x) (Z.shiftl 1 start)) in
  match end_ with
  | None => one_bit
  | Some e =>
      if e =? start then one_bit
      else if e <? start then 0%Q
      else
        inject_Z
          (Z.shiftr (Z.land (Qfloor x) (Z.shiftl (Z.ones (e - start)) start))
             start)
  end.

(** [image.select([0], [newname])], with the default name [<start>Bits]. *)
Definition first_band_as (px : list Band) (start : Z) (new_name : option string)
    : list Band :=
  match px with
  | (_, v) :: _ =>
      [(match new_name with
        | Some n => n
        | None => String.append (decimal 20 start EmptyString) "Bits"
        end, v)]
  | [] => []
  end.

#[global] Instance helpers : Helpers carrier := {|
  carry_metadata := fun f img =>
    let result := f img in
    ee.Image_set
      (ee.MkImage (ee.properties img ∪ ee.properties result)
         (ee.geo result) (ee.pixels result))
      "system:time_start" (ee.Image_get img "system:time_start");
  extract_bits := fun img start end_ new_name =>
    ee.MkImage (ee.properties img) (ee.geo img)
      (List.map (fun '(n, v) => (n, option_map (bits start end_) v))
         (first_band_as (ee.pixels img) start new_name));
  get_geoms := fun img => ee.MkFeature (ee.geo img);
|}.

Definition w0 : World := {| heap := ∅; log := [] |}.

End Sample.

(* ================================================================== *)
(** * Notions used in the statements *)
(* ================================================================== *)

Section Notions.
Context {C : ee.Carrier} {S : ee.Service C} {H : Helpers C}.

(** The world in which object [l] holds the attributes [d]. *)
Definition store (w : World) (l : nat) (d : Dataset) : World :=
  {| heap := <[l := d]> (heap w); log := log w |}.

(** The object that carries the result of a composition call: the returned
    object, or the receiver when the call returned [None]. *)
Definition produced (r : option nat) (self : nat) : nat :=
  match r with
  | Some outCls => outCls
  | None => self
  end.

(** The number an image has under [system:time_start], if it has one. *)
Definition time_start (img : ee.Image) : option Z :=
  match ee.properties img !! "system:time_start" with
  | Some (ee.VNum t) => Some t
  | _ => None
  end.

(** The five composition operations, with their arguments other than the
    receiver and [inplace]. *)
Inductive Composition : Type :=
| Apply_func (K : Type) (func : ee.Image -> K -> ee.Image) (kwargs : K)
| Clip_to_region
| Merge (dataset : nat)
| Join (dataset : nat)
| Aggregate_time (dates : option (list string)) (period : Z)
    (reducer : ee.Reducer) (clip_to_area : bool).

Definition invoke (op : Composition) (self : nat) (inplace : bool) : Py (option nat) :=
  match op with
  | Apply_func K func kwargs => Dataset.apply_func self func inplace kwargs
  | Clip_to_region => Dataset.clip_to_region self inplace
  | Merge dataset => Dataset.merge self dataset inplace
  | Join dataset => Dataset.join self dataset inplace
  | Aggregate_time dates period reducer clip_to_area =>
      Dataset.aggregate_time self dates period reducer clip_to_area inplace
  end.

(** The objects an operation reads besides its receiver. *)
Definition operand_of (op : Composition) : option nat :=
  match op with
  | Merge dataset | Join dataset => Some dataset
  | _ => None
  end.

(** The band names of the first image of a collection. *)
Definition first_band_names (c : list ee.Image) : list string :=
  match c with
  | img :: _ => ee.Image_bandNames img
  | [] => ee.bandNames_of_none
  end.

(** The collection an operation computes from the attributes [d] of the
    receiver, in the world [w]. *)
Definition resulting (op : Composition) (w : World) (d : Dataset) : list ee.Image :=
  match op with
  | Apply_func K func kwargs =>
      List.map (fun img => func img kwargs) (_collection d)
  | Clip_to_region =>
      List.map (carry_metadata (fun img => ee.Image_clip img (region d)))
        (_collection d)
  | Merge dataset =>
      match heap w !! dataset with
      | Some d2 =>
          ee.sort (ee.merge (_collection d) (_collection d2)) "system:time_start"
      | None => []
      end
  | Join dataset =>
      match heap w !! dataset with
      | Some d2 =>
          List.map (Dataset._merge (__name__ (__class__ d2)))
            (ee.Join_saveAll (__name__ (__class__ d2)) (_collection d)
               (_collection d2) Dataset.join_filter)
      | None => []
      end
  | Aggregate_time dates period reducer clip_to_area =>
      List.map
        (Dataset._aggregation (_collection d) period reducer clip_to_area
           (first_band_names (_collection d)))
        (match dates with
         | None => Dataset.collection_dates (_collection d)
         | Some dates => dates
         end)
  end.

(** [d'] has the attributes of [d], except perhaps for the collection. *)
Definition same_but_collection (d d' : Dataset) : Prop :=
  __class__ d' = __class__ d /\ region d' = region d /\
  start_time d' = start_time d /\ end_time d' = end_time d /\
  asset_id d' = asset_id d /\ use_qa d' = use_qa d /\
  BANDREMAP d' = BANDREMAP d /\ gain d' = gain d /\ bias d' = bias d.

(** The world a computation ends in, whether it returns or raises. *)
Definition final_world {A : Type} (o : Outcome A) : World :=
  match o with
  | Returns _ w => w
  | Raises _ w => w
  end.

(** The collection object [l] holds in [w]. *)
Definition collection_in (w : World) (l : nat) : list ee.Image :=
  match heap w !! l with
  | Some d => _collection d
  | None => []
  end.

(** The world after one logged lookup of [self.qa]. *)
Definition logged (w : World) (self : nat) : World :=
  {| heap := heap w; log := log w ++ [GetAttr self "qa"] |}.

(** The world once [__init__] has assigned its arguments to [self], for
    an object the store already holds. *)
Definition begun (w : World) (self : nat) (region : ee.Geom)
    (start_time end_time : ee.DateArg) (asset_id : string) (use_qa : bool)
    : World :=
  match heap w !! self with
  | Some d =>
      store w self
        {| __class__ := __class__ d; region := region;
           start_time := start_time; end_time := end_time;
           asset_id := asset_id; use_qa := use_qa;
           BANDREMAP := Dataset.BANDREMAP_table;
           _collection := _collection d; gain := gain d; bias := bias d |}
  | None => w
  end.

(** The collection [Dataset.__init__] starts from: the named collection
    filtered by region, then by the time window. *)
Definition base_collection (asset_id : string) (region : ee.Geom)
    (start_time end_time : ee.DateArg) : list ee.Image :=
  ee.filterDate
    (ee.filterBounds (ee.ImageCollection asset_id) region)
    (ee.Date start_time) (ee.Date end_time).

(** The attributes of an object whose [__init__] stored collection [c];
    [old] is the object as it was before, [None] for a new one. *)
Definition initial (old : option Dataset) (cls : PyClass) (region : ee.Geom)
    (start_time end_time : ee.DateArg) (asset_id : string) (use_qa : bool)
    (c : list ee.Image) : Dataset :=
  {| __class__ := cls; region := region; start_time := start_time;
     end_time := end_time; asset_id := asset_id; use_qa := use_qa;
     BANDREMAP := Dataset.BANDREMAP_table; _collection := c;
     gain := kept gain old; bias := kept bias old |}.

(** The instant a date argument denotes, in milliseconds. *)
Definition instant (d : ee.DateArg) : Z :=
  match d with
  | ee.DateStr s => ee.Date_parse s
  | ee.DateMillis ms => ms
  end.

(** The footprint of an image meets the region. *)
Definition in_region (region : ee.Geom) (img : ee.Image) : Prop :=
  ee.Geometry_intersects (ee.geo img) region None = true.

(** The images whose start time lies in [[t1, t2)]. *)
Definition in_window (t1 t2 : Z) (img : ee.Image) : Prop :=
  exists t, time_start img = Some t /\ t1 <= t < t2.

(** The common band names, and what harmonized means for a collection. *)
Definition common_names : list string :=
  ["blue"; "green"; "red"; "nir"; "swir1"; "swir2"].

Definition harmonized (c : list ee.Image) : Prop :=
  forall img, In img c -> ee.Image_bandNames img = common_names.

(** The six wrapper classes and their constructors. *)
Inductive Sensor : Type :=
| sentinel1 | sentinel2 | landsat7 | landsat8 | modis | viirs.

Definition construct (s : Sensor) (self : nat) (region : ee.Geom)
    (start_time end_time : ee.DateArg) (asset_id : string)
    (apply_band_adjustment use_qa : bool) : Py unit :=
  match s with
  | sentinel1 => Sentinel1.__init__ self region start_time end_time asset_id use_qa
  | sentinel2 =>
      Sentinel2.__init__ self region start_time end_time asset_id
        apply_band_adjustment use_qa
  | landsat7 =>
      Landsat7.__init__ self region start_time end_time asset_id
        apply_band_adjustment use_qa
  | landsat8 => Landsat8.__init__ self region start_time end_time asset_id use_qa
  | modis => Modis.__init__ self region start_time end_time asset_id use_qa
  | viirs =>
      Viirs.__init__ self region start_time end_time asset_id
        apply_band_adjustment use_qa
  end.

(** The key of [BANDREMAP] a constructor reads, if it reads one. *)
Definition table_key (s : Sensor) : option string :=
  match s with
  | sentinel1 => None
  | sentinel2 => Some "sen2"
  | landsat7 => Some "landsat7"
  | landsat8 => Some "landsat8"
  | modis => Some "modis"
  | viirs => Some "viirs"
  end.

Definition sensor_class (s : Sensor) : PyClass :=
  match s with
  | sentinel1 => Sentinel1.cls
  | sentinel2 => Sentinel2.cls
  | landsat7 => Landsat7.cls
  | landsat8 => Landsat8.cls
  | modis => Modis.cls
  | viirs => Viirs.cls
  end.

Definition sensor_qa (s : Sensor) : nat -> ee.Image -> ee.Image :=
  match s with
  | sentinel1 => Sentinel1.qa
  | sentinel2 => Sentinel2.qa
  | landsat7 => Landsat7.qa
  | landsat8 => Landsat8.qa
  | modis => Modis.qa
  | viirs => Viirs.qa
  end.

(** The world and the collection [Dataset.__init__] leaves for a class
    that defines [qa]. *)
Definition initial_world (w : World) (self : nat) (use_qa : bool) : World :=
  if use_qa then logged w self else w.

Definition initial_collection (qa : nat -> ee.Image -> ee.Image) (self : nat)
    (asset_id : string) (region : ee.Geom) (start_time end_time : ee.DateArg)
    (use_qa : bool) : list ee.Image :=
  if use_qa
  then List.map (qa self) (base_collection asset_id region start_time end_time)
  else base_collection asset_id region start_time end_time.

(** The entry of the band table under [key]. *)
Definition selectors_of (key : string) : list string :=
  match Dataset.BANDREMAP_table !! key with
  | Some l => l
  | None => []
  end.

(** The attributes of a sensor object once its constructor has returned;
    [old] is the object as it was before, [None] for a new one. *)
Definition constructed (s : Sensor) (old : option Dataset) (self : nat)
    (region : ee.Geom) (start_time end_time : ee.DateArg) (asset_id : string)
    (apply_band_adjustment use_qa : bool) : Dataset :=
  let d0 :=
    initial old (sensor_class s) region start_time end_time asset_id use_qa
      (initial_collection (sensor_qa s) self asset_id region start_time
         end_time use_qa) in
  let selected key :=
    ee.select (_collection d0) (selectors_of key) (selectors_of "new") in
  let adjusted key gains biases :=
    if apply_band_adjustment then
      let g := ee.Image_constant gains in
      let b := ee.Image_multiply (ee.Image_constant biases) (ee.num 10000) in
      with_collection (with_bias (with_gain d0 g) b)
        (List.map (carry_metadata (Dataset.band_pass_adjustment_body g b))
           (selected key))
    else with_collection d0 (selected key) in
  match s with
  | sentinel1 =>
      with_collection d0
        (ee.filter (_collection d0)
           (ee.Filter_listContains "transmitterReceiverPolarisation" "VH"))
  | landsat8 => with_collection d0 (selected "landsat8")
  | modis =>
      with_collection d0
        (List.map (carry_metadata (fun img => ee.Image_clip img region))
           (selected "modis"))
  | sentinel2 =>
      adjusted "sen2" Sentinel2.gain_coefficients Sentinel2.bias_coefficients
  | landsat7 =>
      adjusted "landsat7" Landsat7.gain_coefficients Landsat7.bias_coefficients
  | viirs => adjusted "viirs" Viirs.gain_coefficients Viirs.bias_coefficients
  end.

(** What a constructor applies to an image after the band selection. *)
Definition after_select (s : Sensor) (region : ee.Geom)
    (apply_band_adjustment : bool) : ee.Image -> ee.Image :=
  let adjust gains biases :=
    if apply_band_adjustment then
      carry_metadata
        (Dataset.band_pass_adjustment_body (ee.Image_constant gains)
           (ee.Image_multiply (ee.Image_constant biases) (ee.num 10000)))
    else fun img => img in
  match s with
  | sentinel1 | landsat8 => fun img => img
  | modis => carry_metadata (fun img => ee.Image_clip img region)
  | sentinel2 => adjust Sentinel2.gain_coefficients Sentinel2.bias_coefficients
  | landsat7 => adjust Landsat7.gain_coefficients Landsat7.bias_coefficients
  | viirs => adjust Viirs.gain_coefficients Viirs.bias_coefficients
  end.

(** The three flag masks of the Landsat [pixel_qa] band: 1 where the bit
    at [start] is clear. *)
Definition flag_clear (start : Z) (new_name : string) (img : ee.Image) : ee.Image :=
  ee.Image_eq
    (extract_bits (ee.Image_select img ["pixel_qa"]) start None (Some new_name))
    (ee.num 0).

Definition cloud_clear : ee.Image -> ee.Image := flag_clear 5 "cloud_mask".
Definition shadow_clear : ee.Image -> ee.Image := flag_clear 3 "shadow_mask".
Definition snow_clear : ee.Image -> ee.Image := flag_clear 4 "snow_mask".

(** An image carries the polarisation ["VH"]. *)
Definition has_VH (img : ee.Image) : Prop :=
  exists l,
    ee.Image_get img "transmitterReceiverPolarisation" = Some (ee.VList l) /\
    In (ee.VStr "VH") l.

(** What the service and the decorator do to band names: a selection
    with new names has the new names, a constant image has one band per
    value, clipping and the decorator keep the names, and the result of an
    arithmetic operation is named after its left operand when the right one
    has no more bands (the service names it after the operand with more
    bands, and after the left one when both have as many). *)
Record BandLaws : Prop := {
  names_select_as : forall img selectors names,
    length selectors = length names ->
    ee.Image_bandNames (ee.Image_select_as img selectors names) = names;
  names_constant : forall qs,
    length (ee.Image_bandNames (ee.Image_constant qs)) = length qs;
  names_clip : forall img g,
    ee.Image_bandNames (ee.Image_clip img g) = ee.Image_bandNames img;
  names_multiply : forall a b,
    (length (ee.Image_bandNames b) <= length (ee.Image_bandNames a))%nat ->
    ee.Image_bandNames (ee.Image_multiply a b) = ee.Image_bandNames a;
  names_add : forall a b,
    (length (ee.Image_bandNames b) <= length (ee.Image_bandNames a))%nat ->
    ee.Image_bandNames (ee.Image_add a b) = ee.Image_bandNames a;
  names_carry_metadata : forall f img,
    ee.Image_bandNames (carry_metadata f img) = ee.Image_bandNames (f img);
}.

(** The join condition in the words of the documentation: start times at
    most one day apart, footprints that intersect. *)
Definition within_one_day (x y : ee.Image) : Prop :=
  exists tx ty, time_start x = Some tx /\ time_start y = Some ty /\
    Z.abs (tx - ty) <= 86400000.

Definition footprints_intersect (x y : ee.Image) : Prop :=
  ee.Geometry_intersects (ee.geo x) (ee.geo y) (Some 100) = true.

Definition colocated (x y : ee.Image) : Prop :=
  within_one_day x y /\ footprints_intersect x y.

(** The union of the footprints of a list of images. *)
Definition footprint_union (c : list ee.Image) : ee.Geom :=
  ee.FeatureCollection_geometry
    (ee.FeatureCollection_union
       (List.map (fun img => ee.MkFeature (ee.geo img)) c) 100) 100.

(** A retained image of a join: the matches [ms] are saved under [key],
    their mosaic is added as bands, and the result is clipped to the
    intersection of the image's footprint with the union of theirs. *)
Definition joined_image (key : string) (img : ee.Image) (ms : list ee.Image)
    : ee.Image :=
  ee.Image_clip
    (ee.Image_addBands
       (ee.Image_set img key (Some (ee.VImages ms)))
       (ee.ImageCollection_mosaic ms))
    (ee.Geometry_intersection (ee.geo img) (footprint_union ms) 100).

(** The aggregate for a date starting at [t] whose contributing images are
    [window]: their reduction, renamed to [names], stamped with [t], and
    clipped to the union of their footprints when [clip_to_area] is true. *)
Definition aggregated (reducer : ee.Reducer) (clip_to_area : bool)
    (names : list string) (t : Z) (window : list ee.Image) : ee.Image :=
  let img :=
    ee.Image_set
      (ee.Image_rename (ee.ImageCollection_reduce window reducer) names)
      "system:time_start" (Some (ee.VNum t)) in
  if clip_to_area then ee.Image_clip img (footprint_union window) else img.

(** Ascending order of the numbers under [key]. *)
Definition key_le (key : string) (x y : ee.Image) : Prop :=
  ee.key_leb (ee.number_of x key) (ee.number_of y key) = true.

(** Ascending order of [system:time_start]: of two images that have a
    start time, the one that comes first starts no later. *)
Definition ascending (x y : ee.Image) : Prop :=
  forall tx ty, time_start x = Some tx -> time_start y = Some ty -> tx <= ty.

(** Strictly ascending: both have a start time, and the first is earlier. *)
Definition earlier (x y : ee.Image) : Prop :=
  exists tx ty, time_start x = Some tx /\ time_start y = Some ty /\ tx < ty.

(** [out] is the image [img] under another id: the same pixels, footprint
    and properties, except that the id of [img] under [system:index] has
    [prefix] put before it. *)
Definition relabelled (prefix : string) (img out : ee.Image) : Prop :=
  ee.pixels out = ee.pixels img /\
  ee.geo out = ee.geo img /\
  (forall key, key <> "system:index" ->
     ee.properties out !! key = ee.properties img !! key) /\
  (forall id, ee.properties img !! "system:index" = Some (ee.VStr id) ->
     ee.properties out !! "system:index"
     = Some (ee.VStr (String.append prefix id))).

(** An image without its id. *)
Definition anonymous (img : ee.Image) : ee.Image :=
  ee.MkImage (delete "system:index" (ee.properties img)) (ee.geo img)
    (ee.pixels img).

(** The decorator keeps the pixels and footprint of what the wrapped
    function returns and carries the start time of the argument. *)
Definition carries_metadata : Prop :=
  forall f img,
    ee.pixels (carry_metadata f img) = ee.pixels (f img) /\
    ee.geo (carry_metadata f img) = ee.geo (f img) /\
    ee.Image_get (carry_metadata f img) "system:time_start"
      = ee.Image_get img "system:time_start".

(** [get_geoms] returns the footprint of its argument as a feature. *)
Definition returns_footprint : Prop :=
  forall img, get_geoms img = ee.MkFeature (ee.geo img).

End Notions.

(* ================================================================== *)
(** * Two datasets on the sample service *)
(* ================================================================== *)

Module Scenario.
Import Sample.

Definition area : ee.Geom := [1; 2; 3].

Definition optical : Dataset :=
  {| __class__ := Landsat8.cls; region := area;
     start_time := ee.DateStr "0"; end_time := ee.DateStr "10";
     asset_id := Landsat8.default_asset_id; use_qa := true;
     BANDREMAP := Dataset.BANDREMAP_table;
     _collection := catalogue Landsat8.default_asset_id;
     gain := None; bias := None |}.

Definition radar : Dataset :=
  {| __class__ := Sentinel1.cls; region := area;
     start_time := ee.DateStr "0"; end_time := ee.DateStr "10";
     asset_id := Sentinel1.default_asset_id; use_qa := true;
     BANDREMAP := Dataset.BANDREMAP_table;
     _collection := catalogue Sentinel1.default_asset_id;
     gain := None; bias := None |}.

(** Object 0 is the optical dataset, object 1 the radar dataset. *)
Definition w2 : World := store (store w0 0%nat optical) 1%nat radar.

(** A dataset on which [gain] and [bias] are set. *)
Definition unit_gain : ee.Image := ee.Image_constant [2; 2; 2; 2; 2; 2]%Q.
Definition unit_bias : ee.Image := ee.Image_constant [10; 10; 10; 10; 10; 10]%Q.

Definition adjusted : Dataset :=
  with_bias (with_gain optical unit_gain) unit_bias.

Definition w3 : World := store w0 0%nat adjusted.

Definition a_scene : ee.Image := l8_scene (3 * ee.millis_per_day) [2; 3; 4] 0%Q.

(** A scene whose only flag is snow (bit 4 of [pixel_qa]). *)
Definition snowy : ee.Image := l8_scene (4 * ee.millis_per_day) [1] 16%Q.

(** Helpers that differ from the sample ones on the snow bit only. *)
Definition snow_blind : Helpers carrier :=
  {| carry_metadata := carry_metadata (Helpers := helpers);
     extract_bits := fun img start end_ new_name =>
       if start =? 4 then ee.Image_multiply img (ee.num 0)
       else extract_bits (Helpers := helpers) img start end_ new_name;
     get_geoms := get_geoms (Helpers := helpers) |}.

(** A class whose [qa] calls a method that images do not have: the call
    that [map] makes of it raises [AttributeError]. *)
Definition Hazy_cls : PyClass :=
  {| __name__ := "Hazy";
     class_qa :=
       Some (fun _ =>
               Fails (AttributeError "'Image' object has no attribute 'haze'")) |}.

End Scenario.

(* ================================================================== *)
(** * [Sentinel1.add_fusion_features] *)
(* ================================================================== *)

Module Fusion.

(** The further calls of the service the method makes.  [String_cast] is
    what [ee.String(x)] denotes when [x] is not a string. *)
Class Ops (C : ee.Carrier) : Type := {
  Image_divide : ee.Image -> ee.Image -> ee.Image;
  Image_subtract : ee.Image -> ee.Image -> ee.Image;
  Image_cat : list ee.Image -> ee.Image;
  String_cast : option ee.Value -> string;
}.

Section Methods.
Context {C : ee.Carrier} {S : ee.Service C} {H : Helpers C} {F : Ops C}.

(** [ee.String(x)]. *)
Definition ee_String (x : option ee.Value) : string :=
  match x with
  | Some (ee.VStr s) => s
  | _ => String_cast x
  end.

(** [s.compareTo(t)]: 0 when equal, -1 when [s] comes first, 1 otherwise. *)
Definition compareTo (s t : string) : Z :=
  match String.compare s t with
  | Eq => 0
  | Lt => -1
  | Gt => 1
  end.

(** [ee.Algorithms.If] on a number: 0 is false, any other number true. *)
Definition Algorithms_If_number {A : Type} (condition : Z)
    (trueCase falseCase : A) : A :=
  if condition =? 0 then falseCase else trueCase.

(** The local [orbit_band] of the closure. *)
Definition orbit_band (img : ee.Image) : ee.Image :=
  let orbit := ee_String (ee.Image_get img "orbitProperties_pass") in
  Algorithms_If_number (compareTo orbit "DESCENDING")
    (ee.num 1) (ee.num 0).

(** The closure [_add_fusion_features]. *)
Definition _add_fusion_features (img : ee.Image) : ee.Image :=
  let bounds := ee.Image_geometry img 100 in
  let vv := ee.Image_select img ["VV"] in
  let vh := ee.Image_select img ["VH"] in
  let ratio := ee.Image_rename (Image_divide vv vh) ["ratio"] in
  let ndpi :=
    ee.Image_rename
      (Image_divide (Image_subtract vv vh) (ee.Image_add vv vh)) ["ndpi"] in
  let extraFeatures :=
    Image_cat [ee.Image_rename (orbit_band img) ["orbit"]; ratio; ndpi] in
  ee.Image_addBands img (ee.Image_clip extraFeatures bounds).

(** [add_fusion_features(self, inplace=False)]: no keyword is passed on. *)
Definition add_fusion_features (self : nat) (inplace : bool) : Py (option nat) :=
  Dataset.apply_func self (fun img (_ : unit) => _add_fusion_features img)
    inplace tt.

End Methods.

(** The sample service: samples are divided and subtracted band by band,
    [cat] appends the bands, a value that is no string casts to [""]. *)
#[global] Instance sample_ops : Ops Sample.carrier := {|
  Image_divide := Sample.binary Qdiv;
  Image_subtract := Sample.binary Qminus;
  Image_cat := fun imgs =>
    ee.MkImage ∅ (List.concat (List.map ee.geo imgs))
      (List.concat (List.map ee.pixels imgs));
  String_cast := fun _ => "";
|}.

End Fusion.

(* ================================================================== *)
(** * Programs used in the further statements *)
(* ================================================================== *)

Section Programs.
Context {C : ee.Carrier} {S : ee.Service C} {H : Helpers C}.

(** [ds.op(...)], then [n_images] of the dataset that carries the result. *)
Definition n_images_after (op : Composition) (self : nat) (inplace : bool)
    : Py nat :=
  r ← invoke op self inplace;
  Dataset.n_images (produced r self).

(** [a.merge(b).merge(c).collection] and [a.merge(b.merge(c)).collection]. *)
Definition merge_left (a b c : nat) : Py (list ee.Image) :=
  ab ← Dataset.merge a b false;
  abc ← Dataset.merge (produced ab a) c false;
  Dataset.collection (produced abc (produced ab a)).

Definition merge_right (a b c : nat) : Py (list ee.Image) :=
  bc ← Dataset.merge b c false;
  abc ← Dataset.merge a (produced bc b) false;
  Dataset.collection (produced abc a).

(** [a.merge(b).collection]. *)
Definition merged_collection (a b : nat) : Py (list ee.Image) :=
  r ← Dataset.merge a b false;
  Dataset.collection (produced r a).

(** Images of [c] with the same start time (or none) are the same image. *)
Definition distinct_times (c : list ee.Image) : Prop :=
  forall x y, In x c -> In y c -> time_start x = time_start y -> x = y.

(** [out = ds.copy(); out.op(..., inplace=True)], returning [out]. *)
Definition copy_then (op : Composition) (self : nat) : Py (option nat) :=
  outCls ← Dataset.copy self;
  invoke op outCls true;;
  ret (Some outCls).


(** The classes whose constructor can set [gain] and [bias]. *)
Definition adjustable (s : Sensor) : bool :=
  match s with
  | sentinel2 | landsat7 | viirs => true
  | sentinel1 | landsat8 | modis => false
  end.

(** [Cls(...)] for a sensor class, then [band_pass_adjustment] on the new
    object. *)
Definition new_then_adjust (s : Sensor) (region : ee.Geom)
    (start_time end_time : ee.DateArg) (asset_id : string)
    (apply_band_adjustment use_qa : bool) (img : ee.Image) : Py ee.Image :=
  self ←
    new (fun self =>
           construct s self region start_time end_time asset_id
             apply_band_adjustment use_qa);
  Dataset.band_pass_adjustment self img.


(** Every image of [c] has a number under [system:time_start]. *)
Definition all_timed (c : list ee.Image) : Prop :=
  forall img, In img c -> exists t, time_start img = Some t.

End Programs.

Module Scenario2.
Import Sample.

(** A dataset with no image, stored as object 2 beside the two of
    [Scenario.w2]. *)
Definition empty : Dataset := with_collection Scenario.optical [].

Definition w5 : World := store Scenario.w2 2%nat empty.

(** A radar scene of a descending pass, and one of an ascending pass. *)
Definition pass_scene (pass : string) : ee.Image :=
  scene (3 * ee.millis_per_day) [1; 2]
    [("VV", Some (-8)%Q); ("VH", Some (-16)%Q); ("angle", Some 38%Q)]
    [("orbitProperties_pass", ee.VStr pass)].

(** A MODIS scene with the given [state_1km] word. *)
Definition modis_scene (state : Q) : ee.Image :=
  scene (3 * ee.millis_per_day) [1; 2]
    [("sur_refl_b01", Some 900%Q); ("state_1km", Some state);
     ("SensorZenith", Some 1000%Q)]
    [].

(** Helpers that differ from the sample ones on one start bit only: there
    [extract_bits] returns zeros. *)
Definition blind (bit : Z) : Helpers carrier :=
  {| carry_metadata := carry_metadata (Helpers := helpers);
     extract_bits := fun img start end_ new_name =>
       if start =? bit then ee.Image_multiply img (ee.num 0)
       else extract_bits (Helpers := helpers) img start end_ new_name;
     get_geoms := get_geoms (Helpers := helpers) |}.

(** A radar dataset with one descending and one ascending scene, alone in
    the store. *)
Definition passes : Dataset :=
  with_collection Scenario.radar
    [pass_scene "DESCENDING"; pass_scene "ASCENDING"].

Definition w6 : World := store w0 0%nat passes.


End Scenario2.

(* ================================================================== *)
(** * Running the methods *)
(* ================================================================== *)

Section Running.
Context {C : ee.Carrier} {S : ee.Service C} {H : Helpers C}.

Lemma bind_Returns {A B : Type} (m : Py A) (k : A -> Py B) w a w' :
  m w = Returns a w' -> (m ≫= k) w = k a w'.
Proof. intros Hm. unfold mbind, Py_bind, bind. now rewrite Hm. Qed.

Lemma fresh_lookup (w : World) : heap w !! fresh (dom (heap w)) = None.
Proof. apply not_elem_of_dom, is_fresh. Qed.

Lemma fresh_ne (w : World) l d :
  heap w !! l = Some d -> fresh (dom (heap w)) <> l.
Proof.
  intros Hl Heq. pose proof (fresh_lookup w) as Hf.
  rewrite Heq in Hf. congruence.
Qed.

Lemma getattr_run {A : Type} self name (field : Dataset -> option A) w d a :
  heap w !! self = Some d -> field d = Some a ->
  getattr self name field w = Returns a w.
Proof. intros Hd Ha. unfold getattr. now rewrite Hd, Ha. Qed.

Lemma collection_run self w d :
  heap w !! self = Some d ->
  Dataset.collection self w = Returns (_collection d) w.
Proof. intros Hd. now apply getattr_run with (d := d). Qed.

Lemma setattr_run self name update w d :
  heap w !! self = Some d ->
  setattr self name update w = Returns tt (store w self (update d)).
Proof. intros Hd. unfold setattr. now rewrite Hd. Qed.

Lemma set_collection_run self value w d :
  heap w !! self = Some d ->
  Dataset.set_collection self value w
    = Returns tt (store w self (with_collection d value)).
Proof.
  intros Hd. unfold Dataset.set_collection.
  now rewrite (setattr_run self _ (fun d => with_collection d value) w d Hd).
Qed.

Lemma copy_run self w d :
  heap w !! self = Some d ->
  Dataset.copy self w
    = Returns (fresh (dom (heap w))) (store w (fresh (dom (heap w))) d).
Proof.
  intros Hd. unfold Dataset.copy.
  rewrite (bind_Returns _ _ w d w) by now apply getattr_run with (d := d).
  reflexivity.
Qed.

Lemma store_lookup w l d : heap (store w l d) !! l = Some d.
Proof. apply lookup_insert_eq. Qed.

Lemma store_lookup_ne w l l' d : l <> l' -> heap (store w l d) !! l' = heap w !! l'.
Proof. intros Hne. now apply lookup_insert_ne. Qed.

Lemma store_store w l d d' : store (store w l d) l d' = store w l d'.
Proof. unfold store; simpl. now rewrite insert_insert_eq. Qed.

(** The two endings every composition method shares. *)
Lemma finish_inplace self value w d :
  heap w !! self = Some d ->
  (Dataset.set_collection self value;; ret (@None nat)) w
    = Returns None (store w self (with_collection d value)).
Proof.
  intros Hd.
  now rewrite (bind_Returns _ _ w tt _ (set_collection_run self value w d Hd)).
Qed.

Lemma finish_copy self value w d :
  heap w !! self = Some d ->
  (outCls ← Dataset.copy self;
   Dataset.set_collection outCls value;; ret (Some outCls)) w
    = Returns (Some (fresh (dom (heap w))))
        (store w (fresh (dom (heap w))) (with_collection d value)).
Proof.
  intros Hd.
  rewrite (bind_Returns _ _ w _ _ (copy_run self w d Hd)).
  rewrite (bind_Returns _ _ _ tt _
             (set_collection_run _ value _ d (store_lookup _ _ _))).
  now rewrite store_store.
Qed.

Lemma first_band_names_eq c :
  ee.bandNames_of_first (ee.first c) = first_band_names c.
Proof. now destruct c. Qed.

(** What a composition call returns and the world it leaves. *)
Lemma invoke_run op self inplace w d :
  heap w !! self = Some d ->
  (forall dataset, operand_of op = Some dataset -> is_Some (heap w !! dataset)) ->
  invoke op self inplace w
    = Returns (if inplace then None else Some (fresh (dom (heap w))))
        (store w (if inplace then self else fresh (dom (heap w)))
           (with_collection d (resulting op w d))).
Proof.
  intros Hd Hop.
  pose proof (fresh_ne w self d Hd) as Hne.
  destruct op as [K func kwargs | | dataset | dataset | dates period reducer clip];
    simpl.
  - unfold Dataset.apply_func. destruct inplace.
    + rewrite (bind_Returns _ _ w _ _ (collection_run self w d Hd)).
      now apply finish_inplace.
    + rewrite (bind_Returns _ _ w _ _ (copy_run self w d Hd)).
      rewrite (bind_Returns _ _ _ (_collection d) (store w (fresh (dom (heap w))) d)).
      * rewrite (bind_Returns _ _ _ tt _
                   (set_collection_run _ _ _ d (store_lookup _ _ _))).
        now rewrite store_store.
      * apply collection_run. now rewrite store_lookup_ne.
  - unfold Dataset.clip_to_region.
    rewrite (bind_Returns _ _ w (region d) w)
      by now apply getattr_run with (d := d).
    destruct inplace.
    + rewrite (bind_Returns _ _ w _ _ (collection_run self w d Hd)).
      now apply finish_inplace.
    + rewrite (bind_Returns _ _ w _ _ (copy_run self w d Hd)).
      rewrite (bind_Returns _ _ _ (_collection d) (store w (fresh (dom (heap w))) d)).
      * rewrite (bind_Returns _ _ _ tt _
                   (set_collection_run _ _ _ d (store_lookup _ _ _))).
        now rewrite store_store.
      * apply collection_run. now rewrite store_lookup_ne.
  - destruct (Hop dataset eq_refl) as [d2 Hd2]. rewrite Hd2.
    unfold Dataset.merge.
    rewrite (bind_Returns _ _ w _ _ (collection_run self w d Hd)).
    rewrite (bind_Returns _ _ w _ _ (collection_run dataset w d2 Hd2)).
    destruct inplace; [now apply finish_inplace | now apply finish_copy].
  - destruct (Hop dataset eq_refl) as [d2 Hd2]. rewrite Hd2.
    unfold Dataset.join.
    rewrite (bind_Returns _ _ w (__name__ (__class__ d2)) w)
      by now apply getattr_run with (d := d2).
    rewrite (bind_Returns _ _ w _ _ (collection_run self w d Hd)).
    rewrite (bind_Returns _ _ w _ _ (collection_run dataset w d2 Hd2)).
    destruct inplace; [now apply finish_inplace | now apply finish_copy].
  - unfold Dataset.aggregate_time.
    rewrite (bind_Returns _ _ w _ _ (collection_run self w d Hd)).
    rewrite first_band_names_eq.
    destruct inplace; [now apply finish_inplace | now apply finish_copy].
Qed.

End Running.

(* ================================================================== *)
(** * In-place and functional variants *)
(* ================================================================== *)

Section Identity.
Context {C : ee.Carrier} {S : ee.Service C} {H : Helpers C}.

Lemma with_collection_same d value :
  _collection (with_collection d value) = value /\
  same_but_collection d (with_collection d value).
Proof. unfold same_but_collection. simpl. tauto. Qed.

(** C2.  Each of [apply_func], [clip_to_region], [merge], [join] and
    [aggregate_time], called on a receiver [self] with attributes [d]:
    with [inplace=False] it returns a new object [outCls], absent from the
    store before the call, whose [_collection] is the resulting collection
    and whose other attributes are those of the receiver; every object that
    existed before, the receiver included, keeps all its attributes.  With
    [inplace=True] it returns [None], the receiver's [_collection] is the
    resulting collection, its other attributes and all other objects are
    unchanged. *)
Theorem composition_inplace_or_copy (op : Composition) (self : nat)
    (w : World) (d : Dataset) :
  heap w !! self = Some d ->
  (forall dataset, operand_of op = Some dataset -> is_Some (heap w !! dataset)) ->
  (exists outCls w' d',
      invoke op self false w = Returns (Some outCls) w' /\
      heap w !! outCls = None /\
      heap w' !! outCls = Some d' /\
      _collection d' = resulting op w d /\
      same_but_collection d d' /\
      (forall l, l <> outCls -> heap w' !! l = heap w !! l) /\
      heap w' !! self = Some d /\
      log w' = log w) /\
  (exists w' d',
      invoke op self true w = Returns None w' /\
      heap w' !! self = Some d' /\
      _collection d' = resulting op w d /\
      same_but_collection d d' /\
      (forall l, l <> self -> heap w' !! l = heap w !! l) /\
      log w' = log w).
Proof.
  intros Hd Hop.
  destruct (with_collection_same d (resulting op w d)) as [Hc Hsame].
  split.
  - exists (fresh (dom (heap w))),
      (store w (fresh (dom (heap w))) (with_collection d (resulting op w d))),
      (with_collection d (resulting op w d)).
    rewrite (invoke_run op self false w d Hd Hop).
    split; [reflexivity |].
    split; [apply fresh_lookup |].
    split; [apply store_lookup |].
    split; [exact Hc |].
    split; [exact Hsame |].
    split; [intros l Hl; now apply store_lookup_ne |].
    split; [| reflexivity].
    rewrite store_lookup_ne by now apply fresh_ne with (d := d).
    exact Hd.
  - exists (store w self (with_collection d (resulting op w d))),
      (with_collection d (resulting op w d)).
    rewrite (invoke_run op self true w d Hd Hop).
    split; [reflexivity |].
    split; [apply store_lookup |].
    split; [exact Hc |].
    split; [exact Hsame |].
    split; [intros l Hl; now apply store_lookup_ne | reflexivity].
Qed.

End Identity.

Lemma composition_inplace_or_copy_witness :
  (exists outCls w' d',
      invoke (Merge 1%nat) 0%nat false Scenario.w2 = Returns (Some outCls) w' /\
      heap Scenario.w2 !! outCls = None /\
      heap w' !! outCls = Some d' /\
      _collection d' = resulting (Merge 1%nat) Scenario.w2 Scenario.optical /\
      same_but_collection Scenario.optical d' /\
      (forall l, l <> outCls -> heap w' !! l = heap Scenario.w2 !! l) /\
      heap w' !! 0%nat = Some Scenario.optical /\
      log w' = log Scenario.w2) /\
  (exists w' d',
      invoke (Merge 1%nat) 0%nat true Scenario.w2 = Returns None w' /\
      heap w' !! 0%nat = Some d' /\
      _collection d' = resulting (Merge 1%nat) Scenario.w2 Scenario.optical /\
      same_but_collection Scenario.optical d' /\
      (forall l, l <> 0%nat -> heap w' !! l = heap Scenario.w2 !! l) /\
      log w' = log Scenario.w2).
Proof.
  apply (composition_inplace_or_copy (Merge 1%nat) 0%nat Scenario.w2 Scenario.optical).
  - reflexivity.
  - intros dataset [= <-]. exists Scenario.radar. reflexivity.
Defined.

(* ================================================================== *)
(** * Construction *)
(* ================================================================== *)

Section Construction.
Context {C : ee.Carrier} {S : ee.Service C} {H : Helpers C}.

Lemma time_start_number img :
  ee.number_of img "system:time_start" = time_start img.
Proof. reflexivity. Qed.

Lemma in_range_spec t1 t2 img :
  ee.in_range t1 t2 img = true <-> in_window t1 t2 img.
Proof.
  unfold ee.in_range, in_window. rewrite time_start_number.
  destruct (time_start img) as [t|]; split.
  - intros Ht. exists t. split; [reflexivity | lia].
  - intros (t' & [= <-] & Ht). lia.
  - discriminate.
  - intros (t' & Ht & _). discriminate.
Qed.

Lemma instant_Date d : ee.Date d = instant d.
Proof. now destruct d. Qed.

Lemma base_collection_spec asset_id region start_time end_time img :
  In img (base_collection asset_id region start_time end_time) <->
  In img (ee.ImageCollection asset_id) /\
  ee.Geometry_intersects (ee.geo img) region None = true /\
  in_window (ee.Date start_time) (ee.Date end_time) img.
Proof.
  unfold base_collection, ee.filterDate, ee.filterBounds.
  rewrite !filter_In, in_range_spec. tauto.
Qed.

(** Assigning the arguments first changes nothing in what [__init__]
    stores at the end. *)
Lemma store_begun w self region start_time end_time asset_id use_qa cls c :
  store (begun w self region start_time end_time asset_id use_qa) self
    (initial
       (heap (begun w self region start_time end_time asset_id use_qa) !! self)
       cls region start_time end_time asset_id use_qa c)
  = store w self
      (initial (heap w !! self) cls region start_time end_time asset_id
         use_qa c).
Proof.
  unfold begun. destruct (heap w !! self) as [d|] eqn:Hd.
  - rewrite store_lookup, store_store. reflexivity.
  - now rewrite Hd.
Qed.

Lemma logged_store w self l d :
  store (logged w self) l d = logged (store w l d) self.
Proof. reflexivity. Qed.

(** The outcome of [Dataset.__init__], case by case. *)
Lemma init_run cls self region start_time end_time asset_id use_qa w :
  Dataset.__init__ cls self region start_time end_time asset_id use_qa w
  = if use_qa then
      match class_qa cls with
      | Some qa =>
          match qa self with
          | Builds f =>
              Returns tt
                (store (logged w self) self
                   (initial (heap w !! self) cls region start_time end_time
                      asset_id use_qa
                      (List.map f
                         (base_collection asset_id region start_time end_time))))
          | Fails (AttributeError _) =>
              Raises (AttributeError Dataset.qa_not_defined)
                (logged
                   (begun w self region start_time end_time asset_id use_qa)
                   self)
          | Fails (Exception kind msg) =>
              Raises (Exception kind msg)
                (logged
                   (begun w self region start_time end_time asset_id use_qa)
                   self)
          end
      | None =>
          Raises (AttributeError Dataset.qa_not_defined)
            (logged (begun w self region start_time end_time asset_id use_qa)
               self)
      end
    else
      Returns tt
        (store w self
           (initial (heap w !! self) cls region start_time end_time asset_id
              use_qa (base_collection asset_id region start_time end_time))).
Proof.
  assert (Hheap : forall c,
             <[self := initial
                         (heap (begun w self region start_time end_time
                                  asset_id use_qa) !! self)
                         cls region start_time end_time asset_id use_qa c]>
               (heap (begun w self region start_time end_time asset_id use_qa))
             = <[self := initial (heap w !! self) cls region start_time
                           end_time asset_id use_qa c]> (heap w)).
  { intros c.
    pose proof (store_begun w self region start_time end_time asset_id use_qa
                  cls c) as Hs.
    now injection Hs. }
  assert (Hlog : log (begun w self region start_time end_time asset_id use_qa)
                 = log w).
  { unfold begun. now destruct (heap w !! self). }
  unfold Dataset.__init__.
  rewrite (bind_Returns _ _ w tt
             (begun w self region start_time end_time asset_id use_qa)).
  2:{ unfold begin_attrs, begun, store.
      destruct (heap w !! self); [reflexivity | now destruct w]. }
  unfold mbind, Py_bind, bind, try_except_AttributeError, getattr_qa,
    map_traced, raise, ret, init_attrs, ee.map.
  destruct use_qa.
  - destruct (class_qa cls) as [qa|]; [| reflexivity].
    destruct (qa self) as [f | [msg | kind msg]]; try reflexivity.
    unfold store, logged. simpl. f_equal. f_equal.
    + exact (Hheap _).
    + now rewrite Hlog.
  - unfold store. simpl. f_equal. f_equal.
    + exact (Hheap _).
    + exact Hlog.
Qed.

(** For a class whose [qa] builds the function [qa self]. *)
Lemma init_run_defined cls qa self region start_time end_time asset_id use_qa w :
  class_qa cls = Some (fun self => Builds (qa self)) ->
  Dataset.__init__ cls self region start_time end_time asset_id use_qa w
  = Returns tt
      (store (initial_world w self use_qa) self
         (initial (heap w !! self) cls region start_time end_time asset_id
            use_qa
            (initial_collection qa self asset_id region start_time end_time
               use_qa))).
Proof.
  intros Hqa. rewrite init_run, Hqa. now destruct use_qa.
Qed.

Lemma filters_pinned asset_id region start_time end_time :
  exists near recent : ee.Image -> bool,
    (forall img, near img = true <-> in_region region img) /\
    (forall img, recent img = true
       <-> in_window (instant start_time) (instant end_time) img) /\
    base_collection asset_id region start_time end_time
    = List.filter recent (List.filter near (ee.ImageCollection asset_id)).
Proof.
  exists (fun img => ee.Geometry_intersects (ee.geo img) region None),
    (ee.in_range (instant start_time) (instant end_time)).
  split; [intros img; reflexivity |].
  split; [intros img; apply in_range_spec |].
  unfold base_collection, ee.filterDate, ee.filterBounds.
  now rewrite !instant_Date.
Qed.

(** C1.  [Dataset.__init__] returns when [use_qa] is false, and when the
    class has a [qa] method of which [map] builds a function.  Whenever it
    returns, the object holds the constructor arguments, and its collection
    is the list of the images of the named collection whose footprint meets
    the region, of these the ones whose start time is in
    [[start_time, end_time)], in the order of the named collection; with
    [use_qa] false it is that list itself, with [use_qa] true it is the
    list of the values of the function of [qa] on the images of that
    list. *)
Theorem init_collection (cls : PyClass) (self : nat) (region0 : ee.Geom)
    (start_time0 end_time0 : ee.DateArg) (asset_id0 : string) (use_qa0 : bool)
    (w : World) :
  ((use_qa0 = false \/
    exists qa f, class_qa cls = Some qa /\ qa self = Builds f) ->
   exists w',
     Dataset.__init__ cls self region0 start_time0 end_time0 asset_id0 use_qa0 w
       = Returns tt w') /\
  (forall w',
     Dataset.__init__ cls self region0 start_time0 end_time0 asset_id0 use_qa0 w
       = Returns tt w' ->
     exists d (near recent : ee.Image -> bool),
       heap w' !! self = Some d /\
       (region d = region0 /\ start_time d = start_time0 /\
        end_time d = end_time0 /\ asset_id d = asset_id0 /\
        use_qa d = use_qa0) /\
       (forall img, near img = true <-> in_region region0 img) /\
       (forall img, recent img = true
          <-> in_window (instant start_time0) (instant end_time0) img) /\
       (use_qa0 = false ->
          _collection d
          = List.filter recent
              (List.filter near (ee.ImageCollection asset_id0))) /\
       (use_qa0 = true ->
          exists qa f, class_qa cls = Some qa /\ qa self = Builds f /\
            _collection d
            = List.map f
                (List.filter recent
                   (List.filter near (ee.ImageCollection asset_id0))))).
Proof.
  rewrite init_run.
  destruct (filters_pinned asset_id0 region0 start_time0 end_time0)
    as (near & recent & Hnear & Hrecent & Hbase).
  split.
  - intros [-> | (qa & f & Hqa & Hf)].
    + eexists. reflexivity.
    + rewrite Hqa, Hf. destruct use_qa0; eexists; reflexivity.
  - intros w' Hrun.
    destruct use_qa0.
    + destruct (class_qa cls) as [qa|] eqn:Hqa; [| discriminate].
      destruct (qa self) as [f | [msg | kind msg]] eqn:Hf; try discriminate.
      injection Hrun as <-. eexists. exists near, recent.
      split; [apply store_lookup |].
      split; [now repeat split |].
      split; [exact Hnear |]. split; [exact Hrecent |].
      split; [discriminate |].
      intros _. exists qa, f. rewrite <- Hbase. now repeat split.
    + injection Hrun as <-. eexists. exists near, recent.
      split; [apply store_lookup |].
      split; [now repeat split |].
      split; [exact Hnear |]. split; [exact Hrecent |].
      split; [intros _; now rewrite <- Hbase | discriminate].
Qed.


End Construction.

Lemma init_collection_witness :
  exists w' d (near recent : ee.Image -> bool),
    Dataset.__init__ Landsat8.cls 0%nat Scenario.area (ee.DateStr "0")
      (ee.DateStr "10") Landsat8.default_asset_id true Sample.w0
    = Returns tt w' /\
    heap w' !! 0%nat = Some d /\
    (forall img, near img = true <-> in_region Scenario.area img) /\
    (forall img, recent img = true
       <-> in_window (instant (ee.DateStr "0")) (instant (ee.DateStr "10")) img) /\
    _collection d
    = List.map (Landsat8.qa 0%nat)
        (List.filter recent
           (List.filter near (ee.ImageCollection Landsat8.default_asset_id))).
Proof.
  destruct (init_collection Landsat8.cls 0%nat Scenario.area (ee.DateStr "0")
              (ee.DateStr "10") Landsat8.default_asset_id true Sample.w0)
    as [Hreturns Hcollection].
  destruct Hreturns as [w' Hw'].
  { right. exists (fun self => Builds (Landsat8.qa self)), (Landsat8.qa 0%nat).
    split; reflexivity. }
  destruct (Hcollection w' Hw')
    as (d & near & recent & Hd & _ & Hnear & Hrecent & _ & Hqa).
  exists w', d, near, recent.
  split; [exact Hw' |]. split; [exact Hd |].
  split; [exact Hnear |]. split; [exact Hrecent |].
  destruct (Hqa eq_refl) as (qa & f & Hclass & Hf & Hc).
  injection Hclass as <-. injection Hf as <-. exact Hc.
Defined.


(* ================================================================== *)
(** * Sorting, and [merge] *)
(* ================================================================== *)

Section Sorting.
Context {C : ee.Carrier} {S : ee.Service C} {H : Helpers C}.

Lemma key_leb_total a b : ee.key_leb a b = false -> ee.key_leb b a = true.
Proof. destruct a, b; simpl; try discriminate; try reflexivity. lia. Qed.

Lemma key_leb_trans a b c :
  ee.key_leb a b = true -> ee.key_leb b c = true -> ee.key_leb a c = true.
Proof. destruct a, b, c; simpl; try discriminate; try reflexivity. lia. Qed.

Lemma insert_by_perm key x l : Permutation (ee.insert_by key x l) (x :: l).
Proof.
  induction l as [| y r IH]; simpl.
  - reflexivity.
  - destruct (ee.key_leb _ _).
    + reflexivity.
    + rewrite IH. apply perm_swap.
Qed.

Lemma sort_perm c key : Permutation (ee.sort c key) c.
Proof.
  unfold ee.sort. induction c as [| x r IH]; simpl.
  - reflexivity.
  - rewrite insert_by_perm. now constructor.
Qed.

Lemma insert_by_HdRel key a x l :
  key_le key a x -> HdRel (key_le key) a l ->
  HdRel (key_le key) a (ee.insert_by key x l).
Proof.
  intros Hax Hl. destruct l as [| y r]; simpl.
  - now constructor.
  - destruct (ee.key_leb _ _); constructor; [exact Hax |].
    now inversion Hl.
Qed.

Lemma insert_by_sorted key x l :
  Sorted (key_le key) l -> Sorted (key_le key) (ee.insert_by key x l).
Proof.
  induction 1 as [| y r Hr IH Hy]; simpl.
  - repeat constructor.
  - destruct (ee.key_leb (ee.number_of x key) (ee.number_of y key)) eqn:Hxy.
    + constructor; [now constructor |]. now constructor.
    + constructor; [exact IH |].
      apply insert_by_HdRel; [| exact Hy].
      now apply key_leb_total.
Qed.

Lemma sort_sorted c key : Sorted (key_le key) (ee.sort c key).
Proof.
  unfold ee.sort. induction c as [| x r IH]; simpl.
  - constructor.
  - now apply insert_by_sorted.
Qed.

Lemma sort_strongly_sorted c key : StronglySorted (key_le key) (ee.sort c key).
Proof.
  apply Sorted_StronglySorted; [| apply sort_sorted].
  intros x y z. apply key_leb_trans.
Qed.

Lemma key_le_ascending x y : key_le "system:time_start" x y -> ascending x y.
Proof.
  unfold key_le, ascending. rewrite !time_start_number.
  intros Hle tx ty Hx Hy. rewrite Hx, Hy in Hle. simpl in Hle. lia.
Qed.

Lemma StronglySorted_weaken {A : Type} (R Q : A -> A -> Prop) l :
  (forall x y, R x y -> Q x y) -> StronglySorted R l -> StronglySorted Q l.
Proof.
  intros HRQ. induction 1 as [| x r Hr IH Hx]; constructor; [exact IH |].
  eapply Forall_impl; [exact Hx |]. intros y. apply HRQ.
Qed.

Lemma sort_ascending c : StronglySorted ascending (ee.sort c "system:time_start").
Proof.
  apply StronglySorted_weaken with (R := key_le "system:time_start").
  - apply key_le_ascending.
  - apply sort_strongly_sorted.
Qed.

(** What [merge] of the service does to an element. *)
Lemma prefix_id_relabelled prefix img :
  relabelled prefix img (ee.prefix_id prefix img).
Proof.
  unfold relabelled, ee.prefix_id, ee.Image_get.
  destruct (ee.properties img !! "system:index") as [[z | id | l | l] |] eqn:Hid;
    (split; [reflexivity |]); (split; [reflexivity |]); split;
    try (intros id' Hc; discriminate Hc); try (intros key Hkey; reflexivity).
  - intros key Hkey. now apply lookup_insert_ne.
  - intros id' [= <-]. apply lookup_insert_eq.
Qed.

Lemma map_relabelled prefix c :
  Forall2 (relabelled prefix) c (List.map (ee.prefix_id prefix) c).
Proof.
  induction c as [| img r IH]; simpl; constructor;
    [apply prefix_id_relabelled | exact IH].
Qed.

(** C6.  [a.merge(b)] leaves, in the object that carries the result, a
    collection with exactly the images of [a.collection] and those of
    [b.collection] (counted with multiplicity), in ascending order of
    [system:time_start].  The images are those of the two collections under
    the ids the service gives them in a merged collection: the id of an
    image of [a] prefixed with [1_], of an image of [b] with [2_]. *)
Theorem merge_sorted_union (a b : nat) (inplace : bool) (w : World)
    (da db : Dataset) :
  heap w !! a = Some da ->
  heap w !! b = Some db ->
  exists r w' d' la lb,
    Dataset.merge a b inplace w = Returns r w' /\
    heap w' !! produced r a = Some d' /\
    Forall2 (relabelled "1_") (_collection da) la /\
    Forall2 (relabelled "2_") (_collection db) lb /\
    Permutation (_collection d') (la ++ lb) /\
    StronglySorted ascending (_collection d').
Proof.
  intros Ha Hb.
  assert (Hop : forall dataset, operand_of (Merge b) = Some dataset ->
                  is_Some (heap w !! dataset)).
  { intros dataset [= <-]. now exists db. }
  pose proof (invoke_run (Merge b) a inplace w da Ha Hop) as Hrun.
  simpl in Hrun. rewrite Hb in Hrun.
  exists (if inplace then None else Some (fresh (dom (heap w)))).
  eexists. exists (with_collection da
                     (ee.sort (ee.merge (_collection da) (_collection db))
                        "system:time_start")).
  exists (List.map (ee.prefix_id "1_") (_collection da)),
    (List.map (ee.prefix_id "2_") (_collection db)).
  split; [exact Hrun |].
  split; [destruct inplace; apply store_lookup |].
  split; [apply map_relabelled |].
  split; [apply map_relabelled |].
  split; simpl.
  - apply sort_perm.
  - apply sort_ascending.
Qed.

End Sorting.

Lemma merge_sorted_union_witness :
  exists r w' d' la lb,
    Dataset.merge 0%nat 1%nat false Scenario.w2 = Returns r w' /\
    heap w' !! produced r 0%nat = Some d' /\
    Forall2 (relabelled "1_") (_collection Scenario.optical) la /\
    Forall2 (relabelled "2_") (_collection Scenario.radar) lb /\
    Permutation (_collection d') (la ++ lb) /\
    StronglySorted ascending (_collection d').
Proof.
  apply (merge_sorted_union 0%nat 1%nat false Scenario.w2
           Scenario.optical Scenario.radar); reflexivity.
Defined.

(* ================================================================== *)
(** * [join] *)
(* ================================================================== *)

Section Joining.
Context {C : ee.Carrier} {S : ee.Service C} {H : Helpers C}.

Lemma maxDifference_spec x y :
  ee.Filter_maxDifference (1000 * 60 * 60 * 24)
    "system:time_start" "system:time_start" x y = true
  <-> within_one_day x y.
Proof.
  unfold ee.Filter_maxDifference, within_one_day.
  rewrite !time_start_number.
  destruct (time_start x) as [tx|]; destruct (time_start y) as [ty|]; split;
    try discriminate.
  - intros Hd. exists tx, ty. repeat split. apply Z.leb_le in Hd. lia.
  - intros (tx' & ty' & [= <-] & [= <-] & Hd). apply Z.leb_le. lia.
  - intros (tx' & ty' & _ & Hy & _). discriminate.
  - intros (tx' & ty' & Hx & _). discriminate.
  - intros (tx' & ty' & Hx & _). discriminate.
Qed.

Lemma join_filter_spec x y :
  Dataset.join_filter x y = true <-> colocated x y.
Proof.
  unfold Dataset.join_filter, ee.Filter_And, colocated.
  rewrite andb_true_iff, maxDifference_spec.
  reflexivity.
Qed.

Lemma matches_spec cb img m :
  In m (ee.matches Dataset.join_filter cb img) <-> In m cb /\ colocated img m.
Proof.
  unfold ee.matches. now rewrite filter_In, join_filter_spec.
Qed.

Lemma has_match_spec cb img :
  negb (Nat.eqb (length (ee.matches Dataset.join_filter cb img)) 0) = true
  <-> exists m, In m cb /\ colocated img m.
Proof.
  split.
  - destruct (ee.matches Dataset.join_filter cb img) as [| m ms] eqn:Hm;
      [discriminate |].
    intros _. exists m. apply matches_spec. rewrite Hm. now left.
  - intros (m & Hm). apply matches_spec in Hm.
    destruct (ee.matches Dataset.join_filter cb img); [destruct Hm | reflexivity].
Qed.

(** [_merge] on an image whose matches were just saved under [key]. *)
Lemma join_merge_saved key img ms :
  returns_footprint ->
  Dataset._merge key (ee.Image_set img key (Some (ee.VImages ms)))
  = joined_image key img ms.
Proof.
  intros Hg. unfold Dataset._merge, joined_image, footprint_union.
  unfold ee.Image_get, ee.Image_set, ee.Image_geometry; simpl.
  rewrite lookup_insert_eq; simpl.
  unfold ee.map_features.
  rewrite (map_ext get_geoms (fun img => ee.MkFeature (ee.geo img)) Hg).
  reflexivity.
Qed.

(** C5.  [a.join(b)] leaves, in the object that carries the result, one
    image for each image of [a.collection] that has a colocated image in
    [b.collection] (start times at most 86,400,000 ms apart, footprints
    intersecting), in the order of [a.collection], and no other.  The image
    for [img] is [img] with its matches saved under the class name of [b],
    the mosaic of the matches added as bands, clipped to the intersection of
    the footprint of [img] with the union of the footprints of the matches. *)
Theorem join_colocated (a b : nat) (inplace : bool) (w : World)
    (da db : Dataset) :
  heap w !! a = Some da ->
  heap w !! b = Some db ->
  returns_footprint ->
  exists r w' d' (keep : ee.Image -> bool) (matching : ee.Image -> list ee.Image),
    Dataset.join a b inplace w = Returns r w' /\
    heap w' !! produced r a = Some d' /\
    (forall img, keep img = true <->
       exists m, In m (_collection db) /\ colocated img m) /\
    (forall img m, In m (matching img) <->
       In m (_collection db) /\ colocated img m) /\
    _collection d'
    = List.map
        (fun img => joined_image (__name__ (__class__ db)) img (matching img))
        (List.filter keep (_collection da)).
Proof.
  intros Ha Hb Hg.
  assert (Hop : forall dataset, operand_of (Join b) = Some dataset ->
                  is_Some (heap w !! dataset)).
  { intros dataset [= <-]. now exists db. }
  pose proof (invoke_run (Join b) a inplace w da Ha Hop) as Hrun.
  simpl in Hrun. rewrite Hb in Hrun.
  exists (if inplace then None else Some (fresh (dom (heap w)))).
  eexists. eexists.
  exists (fun img =>
            negb (Nat.eqb
                    (length (ee.matches Dataset.join_filter (_collection db) img)) 0)).
  exists (ee.matches Dataset.join_filter (_collection db)).
  split; [exact Hrun |].
  split; [destruct inplace; apply store_lookup |].
  split; [intros img; apply has_match_spec |].
  split; [intros img m; apply matches_spec |].
  simpl. unfold ee.map, ee.Join_saveAll.
  rewrite List.map_map. apply map_ext. intros img.
  now apply join_merge_saved.
Qed.

End Joining.

Lemma join_colocated_witness :
  exists r w' d' (keep : ee.Image -> bool) (matching : ee.Image -> list ee.Image),
    Dataset.join 0%nat 1%nat false Scenario.w2 = Returns r w' /\
    heap w' !! produced r 0%nat = Some d' /\
    (forall img, keep img = true <->
       exists m, In m (_collection Scenario.radar) /\ colocated img m) /\
    (forall img m, In m (matching img) <->
       In m (_collection Scenario.radar) /\ colocated img m) /\
    _collection d'
    = List.map
        (fun img =>
           joined_image (__name__ (__class__ Scenario.radar)) img (matching img))
        (List.filter keep (_collection Scenario.optical)).
Proof.
  apply (join_colocated 0%nat 1%nat false Scenario.w2
           Scenario.optical Scenario.radar).
  - reflexivity.
  - reflexivity.
  - intros img. reflexivity.
Defined.

(* ================================================================== *)
(** * [aggregate_time] *)
(* ================================================================== *)

Section Aggregation.
Context {C : ee.Carrier} {S : ee.Service C} {H : Helpers C}.

Lemma distinct_In x l : In x (ee.distinct l) <-> In x l.
Proof.
  induction l as [| y r IH]; simpl; [reflexivity |].
  rewrite filter_In, IH, negb_true_iff.
  destruct (String.eqb_spec y x) as [-> | Hne]; [tauto |].
  split; [tauto | intros [Hy | Hr]; [tauto | right; split; [exact Hr | reflexivity]]].
Qed.

Lemma distinct_NoDup l : List.NoDup (ee.distinct l).
Proof.
  induction l as [| y r IH]; simpl; constructor.
  - rewrite filter_In, String.eqb_refl. intros [_ Hf]. discriminate.
  - now apply List.NoDup_filter.
Qed.

Lemma aggregate_array_In c key v :
  In v (ee.aggregate_array c key)
  <-> exists img, In img c /\ ee.Image_get img key = Some v.
Proof.
  unfold ee.aggregate_array.
  rewrite <- list_elem_of_In, list_elem_of_omap.
  split; intros (img & Hi & Hv); exists img; split;
    try exact Hv; now apply list_elem_of_In.
Qed.

Lemma collection_dates_spec c s :
  In s (Dataset.collection_dates c)
  <-> exists img v, In img c /\
        ee.Image_get img "system:time_start" = Some v /\
        s = ee.Date_format (ee.Date_of_value v) "YYYY-MM-dd".
Proof.
  unfold Dataset.collection_dates. rewrite distinct_In, in_map_iff.
  split.
  - intros (v & Hs & Hv). apply aggregate_array_In in Hv.
    destruct Hv as (img & Hi & Hg). now exists img, v.
  - intros (img & v & Hi & Hg & Hs). exists v. split; [now symmetry |].
    apply aggregate_array_In. now exists img.
Qed.


Lemma aggregation_spec c period reducer clip_to_area names s :
  returns_footprint ->
  Dataset._aggregation c period reducer clip_to_area names s
  = aggregated reducer clip_to_area names (ee.Date_parse s)
      (ee.filterDate c (ee.Date_parse s)
         (ee.Date_parse s + period * 86400000)).
Proof.
  intros Hg. unfold Dataset._aggregation, aggregated, footprint_union.
  unfold ee.Algorithms_If, ee.map_features, ee.Date_advance, ee.millis_per_day.
  simpl ee.Date.
  rewrite (map_ext get_geoms (fun img => ee.MkFeature (ee.geo img)) Hg).
  reflexivity.
Qed.

Lemma aggregated_time_start reducer names t window :
  time_start (aggregated reducer false names t window) = Some t.
Proof.
  unfold aggregated, time_start, ee.number_of, ee.Image_get, ee.Image_set; simpl.
  now rewrite lookup_insert_eq.
Qed.

Lemma aggregation_stamped c period reducer names l :
  returns_footprint ->
  Forall2 (fun out s => time_start out = Some (ee.Date_parse s))
    (List.map (Dataset._aggregation c period reducer false names) l) l.
Proof.
  intros Hg. induction l as [| s r IH]; cbn [List.map]; constructor;
    [| exact IH].
  rewrite aggregation_spec by exact Hg. apply aggregated_time_start.
Qed.

Lemma window_filter c t1 t2 :
  ee.filterDate c t1 t2 = List.filter (ee.in_range t1 t2) c.
Proof. reflexivity. Qed.

(** The dates of a collection: one for every start time, each of them the
    date of a value some image has under [system:time_start]. *)
Lemma collection_dates_timed c img t :
  In img c -> time_start img = Some t ->
  In (ee.Date_format t "YYYY-MM-dd") (Dataset.collection_dates c).
Proof.
  intros Hi Ht. apply collection_dates_spec.
  exists img, (ee.VNum t). split; [exact Hi |]. split; [| reflexivity].
  unfold time_start in Ht. unfold ee.Image_get.
  destruct (ee.properties img !! "system:time_start") as [[z | x | l | l] |];
    try discriminate.
  now injection Ht as ->.
Qed.

Lemma collection_dates_from c s :
  In s (Dataset.collection_dates c) ->
  exists img v, In img c /\
    ee.properties img !! "system:time_start" = Some v /\
    (forall t, v = ee.VNum t -> s = ee.Date_format t "YYYY-MM-dd").
Proof.
  intros Hs. apply collection_dates_spec in Hs.
  destruct Hs as (img & v & Hi & Hv & ->).
  exists img, v. split; [exact Hi |]. split; [exact Hv |].
  now intros t ->.
Qed.

Lemma first_band_names_cons c img rest :
  c = img :: rest -> first_band_names c = ee.Image_bandNames img.
Proof. now intros ->. Qed.

(** C7.  [aggregate_time] leaves, in the object that carries the result,
    one image per date of the date list, in order.  With [dates=None] the
    date list has no repetition, holds the ["YYYY-MM-dd"] format of the
    start time of every image of the collection, and nothing but the dates
    of values that images of the collection have under
    [system:time_start]; otherwise it is the list given.  The image for a
    date [s] is the reduction, by the given reducer, of the images of the
    collection whose start time is in [[s, s + period days)], each as often
    and in the order in which the collection has it, renamed to the band
    names of the first image of the collection, with [system:time_start]
    set to the milliseconds of [s], and clipped to the union of the
    footprints of those images when [clip_to_area] is true and not clipped
    otherwise. *)
Theorem aggregate_time_by_date (self : nat) (dates : option (list string))
    (period : Z) (reducer : ee.Reducer) (clip_to_area inplace : bool)
    (w : World) (d : Dataset) :
  heap w !! self = Some d ->
  returns_footprint ->
  exists r w' d' (used : list string) (recent : string -> ee.Image -> bool)
      (names : list string),
    Dataset.aggregate_time self dates period reducer clip_to_area inplace w
      = Returns r w' /\
    heap w' !! produced r self = Some d' /\
    (forall given, dates = Some given -> used = given) /\
    (dates = None ->
       List.NoDup used /\
       (forall img t, In img (_collection d) -> time_start img = Some t ->
          In (ee.Date_format t "YYYY-MM-dd") used) /\
       (forall s, In s used ->
          exists img v, In img (_collection d) /\
            ee.properties img !! "system:time_start" = Some v /\
            (forall t, v = ee.VNum t -> s = ee.Date_format t "YYYY-MM-dd"))) /\
    (forall s img, recent s img = true <->
       in_window (ee.Date_parse s) (ee.Date_parse s + period * 86400000) img) /\
    (forall img rest, _collection d = img :: rest ->
       names = ee.Image_bandNames img) /\
    _collection d'
    = List.map
        (fun s =>
           aggregated reducer clip_to_area names (ee.Date_parse s)
             (List.filter (recent s) (_collection d)))
        used /\
    (clip_to_area = false ->
       Forall2 (fun out s => time_start out = Some (ee.Date_parse s))
         (_collection d') used).
Proof.
  intros Hd Hg.
  assert (Hop : forall dataset,
             operand_of (Aggregate_time dates period reducer clip_to_area)
               = Some dataset -> is_Some (heap w !! dataset))
    by discriminate.
  pose proof (invoke_run (Aggregate_time dates period reducer clip_to_area)
                self inplace w d Hd Hop) as Hrun.
  simpl in Hrun.
  exists (if inplace then None else Some (fresh (dom (heap w)))).
  eexists. eexists.
  exists (match dates with
          | None => Dataset.collection_dates (_collection d)
          | Some given => given
          end).
  exists (fun s => ee.in_range (ee.Date_parse s)
                     (ee.Date_parse s + period * 86400000)).
  exists (first_band_names (_collection d)).
  split; [exact Hrun |].
  split; [destruct inplace; apply store_lookup |].
  split; [now intros given -> |].
  split.
  { intros ->. split; [apply distinct_NoDup |].
    split; [apply collection_dates_timed | apply collection_dates_from]. }
  split; [intros s img; apply in_range_spec |].
  split; [intros img rest; apply first_band_names_cons |].
  simpl. split.
  - apply map_ext. intros s. rewrite <- window_filter. now apply aggregation_spec.
  - intros ->. now apply aggregation_stamped.
Qed.

End Aggregation.

Lemma aggregate_time_by_date_witness :
  exists r w' d' (used : list string) (recent : string -> ee.Image -> bool)
      (names : list string),
    Dataset.aggregate_time 1%nat None Dataset.default_period
      Dataset.default_reducer false false Scenario.w2 = Returns r w' /\
    heap w' !! produced r 1%nat = Some d' /\
    (forall given, @None (list string) = Some given -> used = given) /\
    (@None (list string) = None ->
       List.NoDup used /\
       (forall img t, In img (_collection Scenario.radar) ->
          time_start img = Some t ->
          In (ee.Date_format t "YYYY-MM-dd") used) /\
       (forall s, In s used ->
          exists img v, In img (_collection Scenario.radar) /\
            ee.properties img !! "system:time_start" = Some v /\
            (forall t, v = ee.VNum t -> s = ee.Date_format t "YYYY-MM-dd"))) /\
    (forall s img, recent s img = true <->
       in_window (ee.Date_parse s)
         (ee.Date_parse s + Dataset.default_period * 86400000) img) /\
    (forall img rest, _collection Scenario.radar = img :: rest ->
       names = ee.Image_bandNames img) /\
    _collection d'
    = List.map
        (fun s =>
           aggregated Dataset.default_reducer false names (ee.Date_parse s)
             (List.filter (recent s) (_collection Scenario.radar)))
        used /\
    (false = false ->
       Forall2 (fun out s => time_start out = Some (ee.Date_parse s))
         (_collection d') used).
Proof.
  apply (aggregate_time_by_date 1%nat None Dataset.default_period
           Dataset.default_reducer false false Scenario.w2 Scenario.radar).
  - reflexivity.
  - intros img. reflexivity.
Defined.

(* ================================================================== *)
(** * [band_pass_adjustment] *)
(* ================================================================== *)

Section Adjustment.
Context {C : ee.Carrier} {S : ee.Service C} {H : Helpers C}.

Lemma Image_get_set img key v :
  ee.Image_get (ee.Image_set img key v) key = v.
Proof.
  unfold ee.Image_get, ee.Image_set. destruct v; simpl.
  - apply lookup_insert_eq.
  - apply lookup_delete_eq.
Qed.

Lemma pixels_set img key v : ee.pixels (ee.Image_set img key v) = ee.pixels img.
Proof. now destruct v. Qed.

Lemma geo_set img key v : ee.geo (ee.Image_set img key v) = ee.geo img.
Proof. now destruct v. Qed.

Lemma band_pass_adjustment_run self img w d g b :
  heap w !! self = Some d -> gain d = Some g -> bias d = Some b ->
  Dataset.band_pass_adjustment self img w
  = Returns (carry_metadata (Dataset.band_pass_adjustment_body g b) img) w.
Proof.
  intros Hd Hg Hb. unfold Dataset.band_pass_adjustment.
  rewrite (bind_Returns _ _ w g w) by now apply getattr_run with (d := d).
  rewrite (bind_Returns _ _ w b w) by now apply getattr_run with (d := d).
  reflexivity.
Qed.

(** C8.  On a dataset whose [gain] and [bias] are set to [g] and [b],
    [band_pass_adjustment(img)] returns, without changing the store, the
    decorated function applied to [img]; the function under the decorator
    returns [img.multiply(g).add(b)] with [system:time_start] set to that of
    [img].  With a decorator that keeps the pixels of the wrapped result and
    carries the start time of its argument, the returned image has the
    pixels of [img.multiply(g).add(b)] and the start time of [img]. *)
Theorem band_pass_adjustment_affine (self : nat) (img : ee.Image) (w : World)
    (d : Dataset) (g b : ee.Image) :
  heap w !! self = Some d ->
  gain d = Some g ->
  bias d = Some b ->
  carries_metadata ->
  exists out,
    Dataset.band_pass_adjustment self img w = Returns out w /\
    out = carry_metadata
            (fun x =>
               ee.Image_set (ee.Image_add (ee.Image_multiply x g) b)
                 "system:time_start" (ee.Image_get x "system:time_start"))
            img /\
    ee.Image_get (Dataset.band_pass_adjustment_body g b img) "system:time_start"
      = ee.Image_get img "system:time_start" /\
    ee.pixels (Dataset.band_pass_adjustment_body g b img)
      = ee.pixels (ee.Image_add (ee.Image_multiply img g) b) /\
    ee.pixels out = ee.pixels (ee.Image_add (ee.Image_multiply img g) b) /\
    ee.Image_get out "system:time_start"
      = ee.Image_get img "system:time_start".
Proof.
  intros Hd Hg Hb Hcm. eexists.
  split; [exact (band_pass_adjustment_run self img w d g b Hd Hg Hb) |].
  split; [reflexivity |].
  split; [apply Image_get_set |].
  split; [apply pixels_set |].
  destruct (Hcm (Dataset.band_pass_adjustment_body g b) img) as (Hp & _ & Ht).
  split; [| exact Ht].
  rewrite Hp. apply pixels_set.
Qed.

End Adjustment.

Lemma Sample_carries_metadata : carries_metadata (H := Sample.helpers).
Proof.
  intros f img. unfold carry_metadata, Sample.helpers. split; [| split].
  - now rewrite pixels_set.
  - now rewrite geo_set.
  - apply Image_get_set.
Qed.

Lemma band_pass_adjustment_affine_witness :
  exists out,
    Dataset.band_pass_adjustment 0%nat Scenario.a_scene Scenario.w3
      = Returns out Scenario.w3 /\
    out = carry_metadata
            (fun x =>
               ee.Image_set
                 (ee.Image_add (ee.Image_multiply x Scenario.unit_gain)
                    Scenario.unit_bias)
                 "system:time_start" (ee.Image_get x "system:time_start"))
            Scenario.a_scene /\
    ee.Image_get
      (Dataset.band_pass_adjustment_body Scenario.unit_gain Scenario.unit_bias
         Scenario.a_scene) "system:time_start"
      = ee.Image_get Scenario.a_scene "system:time_start" /\
    ee.pixels
      (Dataset.band_pass_adjustment_body Scenario.unit_gain Scenario.unit_bias
         Scenario.a_scene)
      = ee.pixels
          (ee.Image_add (ee.Image_multiply Scenario.a_scene Scenario.unit_gain)
             Scenario.unit_bias) /\
    ee.pixels out
      = ee.pixels
          (ee.Image_add (ee.Image_multiply Scenario.a_scene Scenario.unit_gain)
             Scenario.unit_bias) /\
    ee.Image_get out "system:time_start"
      = ee.Image_get Scenario.a_scene "system:time_start".
Proof.
  apply (band_pass_adjustment_affine 0%nat Scenario.a_scene Scenario.w3
           Scenario.adjusted Scenario.unit_gain Scenario.unit_bias).
  - reflexivity.
  - reflexivity.
  - reflexivity.
  - exact Sample_carries_metadata.
Defined.

(* ================================================================== *)
(** * The sensor constructors *)
(* ================================================================== *)

Section Sensors.
Context {C : ee.Carrier} {S : ee.Service C} {H : Helpers C}.

Lemma table_new : Dataset.BANDREMAP_table !! "new" = Some (selectors_of "new").
Proof. vm_compute. reflexivity. Qed.
Lemma table_sen2 : Dataset.BANDREMAP_table !! "sen2" = Some (selectors_of "sen2").
Proof. vm_compute. reflexivity. Qed.
Lemma table_landsat7 :
  Dataset.BANDREMAP_table !! "landsat7" = Some (selectors_of "landsat7").
Proof. vm_compute. reflexivity. Qed.
Lemma table_landsat8 :
  Dataset.BANDREMAP_table !! "landsat8" = Some (selectors_of "landsat8").
Proof. vm_compute. reflexivity. Qed.
Lemma table_modis : Dataset.BANDREMAP_table !! "modis" = Some (selectors_of "modis").
Proof. vm_compute. reflexivity. Qed.
Lemma table_viirs : Dataset.BANDREMAP_table !! "viirs" = Some (selectors_of "viirs").
Proof. vm_compute. reflexivity. Qed.

Lemma selectors_new : selectors_of "new" = common_names.
Proof. vm_compute. reflexivity. Qed.

Lemma BANDREMAP_get_run self key w d :
  heap w !! self = Some d ->
  BANDREMAP d = Dataset.BANDREMAP_table ->
  Dataset.BANDREMAP_table !! key = Some (selectors_of key) ->
  Dataset.BANDREMAP_get self key w = Returns (selectors_of key) w.
Proof.
  intros Hd Hb Hk. unfold Dataset.BANDREMAP_get.
  apply getattr_run with (d := d); [exact Hd |]. now rewrite Hb.
Qed.

Lemma map_method_run self coll w d g b :
  heap w !! self = Some d -> gain d = Some g -> bias d = Some b ->
  map_method coll (Dataset.band_pass_adjustment self) w
  = Returns
      (List.map (carry_metadata (Dataset.band_pass_adjustment_body g b)) coll) w.
Proof.
  intros Hd Hg Hb. induction coll as [| img r IH]; simpl; [reflexivity |].
  rewrite (bind_Returns _ _ w _ w
             (band_pass_adjustment_run self img w d g b Hd Hg Hb)).
  now rewrite (bind_Returns _ _ w _ w IH).
Qed.

(** The selection step shared by the optical constructors. *)
Ltac select_steps key Htable :=
  erewrite bind_Returns by (apply collection_run, store_lookup);
  erewrite bind_Returns
    by (eapply (BANDREMAP_get_run _ key);
        [apply store_lookup | reflexivity | exact Htable]);
  erewrite bind_Returns
    by (eapply (BANDREMAP_get_run _ "new");
        [apply store_lookup | reflexivity | exact table_new]);
  cbv zeta.

(** The adjustment step shared by [Viirs], [Landsat7] and [Sentinel2]. *)
Lemma adjustment_run self w d coll g b (apply_band_adjustment : bool) :
  heap w !! self = Some d ->
  (coll ←
     (if apply_band_adjustment then
        setattr self "gain" (fun d => with_gain d g);;
        setattr self "bias" (fun d => with_bias d b);;
        map_method coll (Dataset.band_pass_adjustment self)
      else ret coll);
   Dataset.set_collection self coll) w
  = Returns tt
      (store w self
         (if apply_band_adjustment then
            with_collection (with_bias (with_gain d g) b)
              (List.map (carry_metadata (Dataset.band_pass_adjustment_body g b))
                 coll)
          else with_collection d coll)).
Proof.
  intros Hd. destruct apply_band_adjustment.
  - erewrite bind_Returns.
    2:{ erewrite bind_Returns
          by exact (setattr_run self "gain" (fun d => with_gain d g) w d Hd).
        erewrite bind_Returns
          by exact (setattr_run self "bias" (fun d => with_bias d b) _ _
                      (store_lookup _ _ _)).
        rewrite store_store.
        apply map_method_run with (d := with_bias (with_gain d g) b);
          [apply store_lookup | reflexivity | reflexivity]. }
    rewrite (set_collection_run self _ _ _ (store_lookup _ _ _)).
    now rewrite store_store.
  - erewrite bind_Returns by reflexivity.
    apply set_collection_run, Hd.
Qed.

(** Every sensor constructor returns, and leaves [constructed]. *)
Lemma construct_run s self region start_time end_time asset_id
    apply_band_adjustment use_qa w :
  construct s self region start_time end_time asset_id apply_band_adjustment
    use_qa w
  = Returns tt
      (store (initial_world w self use_qa) self
         (constructed s (heap w !! self) self region start_time end_time
            asset_id apply_band_adjustment use_qa)).
Proof.
  destruct s; simpl construct.
  - unfold Sentinel1.__init__.
    erewrite bind_Returns
      by (apply (init_run_defined _ Sentinel1.qa); reflexivity).
    erewrite bind_Returns by (apply collection_run, store_lookup).
    rewrite (set_collection_run self _ _ _ (store_lookup _ _ _)).
    now rewrite store_store.
  - unfold Sentinel2.__init__.
    erewrite bind_Returns
      by (apply (init_run_defined _ Sentinel2.qa); reflexivity).
    select_steps "sen2" table_sen2.
    rewrite (adjustment_run self _ _ _ _ _ _ (store_lookup _ _ _)).
    rewrite store_store. now destruct apply_band_adjustment.
  - unfold Landsat7.__init__.
    erewrite bind_Returns
      by (apply (init_run_defined _ Landsat7.qa); reflexivity).
    select_steps "landsat7" table_landsat7.
    rewrite (adjustment_run self _ _ _ _ _ _ (store_lookup _ _ _)).
    rewrite store_store. now destruct apply_band_adjustment.
  - unfold Landsat8.__init__.
    erewrite bind_Returns
      by (apply (init_run_defined _ Landsat8.qa); reflexivity).
    select_steps "landsat8" table_landsat8.
    rewrite (set_collection_run self _ _ _ (store_lookup _ _ _)).
    now rewrite store_store.
  - unfold Modis.__init__.
    erewrite bind_Returns
      by (apply (init_run_defined _ Modis.qa); reflexivity).
    select_steps "modis" table_modis.
    erewrite bind_Returns
      by exact (set_collection_run self _ _ _ (store_lookup _ _ _)).
    rewrite store_store.
    erewrite bind_Returns.
    2:{ apply (invoke_run Clip_to_region self true);
          [apply store_lookup | discriminate]. }
    now rewrite store_store.
  - unfold Viirs.__init__.
    erewrite bind_Returns
      by (apply (init_run_defined _ Viirs.qa); reflexivity).
    select_steps "viirs" table_viirs.
    rewrite (adjustment_run self _ _ _ _ _ _ (store_lookup _ _ _)).
    rewrite store_store. now destruct apply_band_adjustment.
Qed.

End Sensors.

(* ================================================================== *)
(** * Sentinel-1: the polarisation filter *)
(* ================================================================== *)

Section Polarisation.
Context {C : ee.Carrier} {S : ee.Service C} {H : Helpers C}.

Lemma value_eqb_str_spec v s : ee.value_eqb_str v s = true <-> v = ee.VStr s.
Proof.
  destruct v; simpl; try (split; [discriminate | intros Hv; discriminate]).
  rewrite String.eqb_eq. split; [now intros -> | now intros [= ->]].
Qed.

Lemma listContains_VH img :
  ee.Filter_listContains "transmitterReceiverPolarisation" "VH" img = true
  <-> has_VH img.
Proof.
  unfold ee.Filter_listContains, has_VH.
  destruct (ee.Image_get img "transmitterReceiverPolarisation") as [[| | l |] |];
    try (split; [discriminate | intros (l' & Hl & _); discriminate]).
  rewrite existsb_exists. split.
  - intros (v & Hin & Hv). apply value_eqb_str_spec in Hv. subst v.
    now exists l.
  - intros (l' & [= <-] & Hin). exists (ee.VStr "VH").
    split; [exact Hin | now apply value_eqb_str_spec].
Qed.

(** C9.  The [Sentinel1] constructor returns for either value of [use_qa],
    and the collection it leaves is the collection of [Dataset.__init__]
    filtered by [listContains("transmitterReceiverPolarisation", "VH")]:
    its images are exactly those of that collection whose polarisation list
    contains ["VH"]. *)
Theorem sentinel1_only_VH (self : nat) (region0 : ee.Geom)
    (start_time0 end_time0 : ee.DateArg) (asset_id0 : string) (use_qa0 : bool)
    (w : World) :
  exists w' d,
    Sentinel1.__init__ self region0 start_time0 end_time0 asset_id0 use_qa0 w
      = Returns tt w' /\
    heap w' !! self = Some d /\
    _collection d
    = ee.filter
        (initial_collection Sentinel1.qa self asset_id0 region0 start_time0
           end_time0 use_qa0)
        (ee.Filter_listContains "transmitterReceiverPolarisation" "VH") /\
    (forall img, In img (_collection d) -> has_VH img) /\
    (forall img, In img (_collection d) <->
       In img
         (initial_collection Sentinel1.qa self asset_id0 region0 start_time0
            end_time0 use_qa0) /\
       has_VH img).
Proof.
  do 2 eexists.
  split; [exact (construct_run sentinel1 self region0 start_time0 end_time0
                   asset_id0 false use_qa0 w) |].
  split; [apply store_lookup |].
  split; [reflexivity |].
  simpl. unfold ee.filter. split.
  - intros img Hin. apply filter_In in Hin. now apply listContains_VH.
  - intros img. now rewrite filter_In, listContains_VH.
Qed.

End Polarisation.

(* ================================================================== *)
(** * Band names *)
(* ================================================================== *)

Section Bands.
Context {C : ee.Carrier} {S : ee.Service C} {H : Helpers C}.

Lemma selectors_length s key :
  table_key s = Some key -> length (selectors_of key) = 6%nat.
Proof. destruct s; intros [= <-]; vm_compute; reflexivity. Qed.

Lemma table_lookup s key :
  table_key s = Some key ->
  Dataset.BANDREMAP_table !! key = Some (selectors_of key).
Proof.
  destruct s; intros [= <-];
    [apply table_sen2 | apply table_landsat7 | apply table_landsat8
    | apply table_modis | apply table_viirs].
Qed.

Lemma bandNames_set img key v :
  ee.Image_bandNames (ee.Image_set img key v) = ee.Image_bandNames img.
Proof. unfold ee.Image_bandNames. now rewrite pixels_set. Qed.

(** The adjustment by six gains and six biases keeps the names of an image
    of six bands. *)
Lemma adjusted_names gains biases img :
  BandLaws ->
  length gains = 6%nat -> length biases = 6%nat ->
  length (ee.Image_bandNames img) = 6%nat ->
  ee.Image_bandNames
    (carry_metadata
       (Dataset.band_pass_adjustment_body (ee.Image_constant gains)
          (ee.Image_multiply (ee.Image_constant biases) (ee.num 10000)))
       img)
  = ee.Image_bandNames img.
Proof.
  intros L Hg Hb Hi. rewrite (names_carry_metadata L).
  unfold Dataset.band_pass_adjustment_body. rewrite bandNames_set.
  assert (Hm : ee.Image_bandNames
                 (ee.Image_multiply img (ee.Image_constant gains))
               = ee.Image_bandNames img).
  { apply (names_multiply L). rewrite (names_constant L). lia. }
  assert (Hbias : ee.Image_bandNames
                    (ee.Image_multiply (ee.Image_constant biases) (ee.num 10000))
                  = ee.Image_bandNames (ee.Image_constant biases)).
  { apply (names_multiply L). unfold ee.num.
    rewrite !(names_constant L), Hb. simpl. lia. }
  rewrite (names_add L); [exact Hm |].
  rewrite Hm, Hbias, (names_constant L). lia.
Qed.

Lemma after_select_names s region adj img :
  BandLaws ->
  length (ee.Image_bandNames img) = 6%nat ->
  ee.Image_bandNames (after_select s region adj img) = ee.Image_bandNames img.
Proof.
  intros L Hi.
  destruct s; simpl; try reflexivity;
    try (destruct adj; [now apply adjusted_names | reflexivity]).
  now rewrite (names_carry_metadata L), (names_clip L).
Qed.

Lemma constructed_collection s key old self region start_time end_time
    asset_id adj use_qa :
  table_key s = Some key ->
  _collection
    (constructed s old self region start_time end_time asset_id adj use_qa)
  = List.map
      (fun img =>
         after_select s region adj
           (ee.Image_select_as img (selectors_of key) common_names))
      (initial_collection (sensor_qa s) self asset_id region start_time
         end_time use_qa).
Proof.
  destruct s; intros [= <-]; unfold constructed, after_select, ee.select, ee.map;
    rewrite selectors_new; simpl;
    try (destruct adj; simpl); try rewrite List.map_map; reflexivity.
Qed.

(** C4, as amended.  For the five optical classes ([Sentinel2], [Landsat7],
    [Landsat8], [Modis], [Viirs]) the constructor returns and leaves, for
    every image of the collection of [Dataset.__init__], that image with
    the six bands listed in [BANDREMAP] under the key of the sensor selected
    and renamed to blue, green, red, nir, swir1, swir2 (the entry ["new"]),
    then clipped ([Modis]) or band-pass adjusted (when asked).  When the
    service names bands as [BandLaws] says (a selection by its new names,
    the result of an arithmetic operation after the operand with more
    bands, clipping and the decorator keeping the names), every image of
    the collection has exactly the six common band names. *)
Theorem optical_bands_harmonized (s : Sensor) (key : string) (self : nat)
    (region0 : ee.Geom) (start_time0 end_time0 : ee.DateArg)
    (asset_id0 : string) (apply_band_adjustment use_qa0 : bool) (w : World) :
  table_key s = Some key ->
  BandLaws ->
  exists w' d,
    construct s self region0 start_time0 end_time0 asset_id0
      apply_band_adjustment use_qa0 w = Returns tt w' /\
    heap w' !! self = Some d /\
    Dataset.BANDREMAP_table !! key = Some (selectors_of key) /\
    length (selectors_of key) = 6%nat /\
    Dataset.BANDREMAP_table !! "new" = Some common_names /\
    _collection d
    = List.map
        (fun img =>
           after_select s region0 apply_band_adjustment
             (ee.Image_select_as img (selectors_of key) common_names))
        (initial_collection (sensor_qa s) self asset_id0 region0 start_time0
           end_time0 use_qa0) /\
    harmonized (_collection d).
Proof.
  intros Hkey L. do 2 eexists.
  split; [apply construct_run |].
  split; [apply store_lookup |].
  split; [now apply table_lookup with (s := s) |].
  split; [now apply selectors_length with (s := s) |].
  split; [rewrite table_new; f_equal; apply selectors_new |].
  split; [now apply constructed_collection |].
  rewrite (constructed_collection s key) by exact Hkey.
  intros img Hin. apply in_map_iff in Hin. destruct Hin as (x & <- & _).
  assert (Hnames : ee.Image_bandNames
                     (ee.Image_select_as x (selectors_of key) common_names)
                   = common_names).
  { apply (names_select_as L). now rewrite (selectors_length s key Hkey). }
  rewrite after_select_names; [exact Hnames | exact L |].
  now rewrite Hnames.
Qed.

Lemma harmonized_names c n :
  harmonized c -> In n (List.map ee.Image_bandNames c) -> n = common_names.
Proof.
  intros Hh Hin. apply in_map_iff in Hin. destruct Hin as (img & <- & Hi).
  now apply Hh.
Qed.

End Bands.

Lemma Sample_select_names px selectors names :
  length selectors = length names ->
  List.map fst (Sample.select_bands px selectors names) = names.
Proof.
  revert names. induction selectors as [| x r IH]; intros [| n names] Hl;
    simpl in *; try discriminate; [reflexivity |].
  f_equal. apply IH. now injection Hl.
Qed.

Lemma Sample_zip_names f a b i :
  List.map fst (Sample.zip_bands f a b i) = List.map fst a.
Proof.
  revert i. induction a as [| [n v] r IH]; intros i; simpl; [reflexivity |].
  f_equal. apply IH.
Qed.

Lemma Sample_binary_names f (a b : ee.Image) :
  (length (ee.Image_bandNames b) <= length (ee.Image_bandNames a))%nat ->
  ee.Image_bandNames (Sample.binary f a b) = ee.Image_bandNames a.
Proof.
  unfold ee.Image_bandNames, Sample.binary, Sample.binary_bands. simpl.
  rewrite !length_map. intros Hl.
  destruct (_ <? _)%nat eqn:Hlt; [| apply Sample_zip_names].
  apply Nat.ltb_lt in Hlt. exfalso. revert Hl Hlt. apply Nat.le_ngt.
Qed.

Lemma Sample_band_laws : BandLaws (S := Sample.service) (H := Sample.helpers).
Proof.
  split.
  - intros img selectors names Hl. now apply Sample_select_names.
  - intros qs. unfold ee.Image_bandNames. simpl. now rewrite !length_map.
  - reflexivity.
  - intros a b. apply Sample_binary_names.
  - intros a b. apply Sample_binary_names.
  - intros f img. unfold carry_metadata, Sample.helpers.
    now rewrite bandNames_set.
Qed.

Lemma optical_bands_harmonized_witness :
  exists w' d,
    construct landsat8 0%nat Scenario.area (ee.DateStr "0") (ee.DateStr "10")
      Landsat8.default_asset_id false true Sample.w0 = Returns tt w' /\
    heap w' !! 0%nat = Some d /\
    Dataset.BANDREMAP_table !! "landsat8" = Some (selectors_of "landsat8") /\
    length (selectors_of "landsat8") = 6%nat /\
    Dataset.BANDREMAP_table !! "new" = Some common_names /\
    _collection d
    = List.map
        (fun img =>
           after_select landsat8 Scenario.area false
             (ee.Image_select_as img (selectors_of "landsat8") common_names))
        (initial_collection (sensor_qa landsat8) 0%nat Landsat8.default_asset_id
           Scenario.area (ee.DateStr "0") (ee.DateStr "10") true) /\
    harmonized (_collection d).
Proof.
  apply (optical_bands_harmonized landsat8 "landsat8" 0%nat Scenario.area
           (ee.DateStr "0") (ee.DateStr "10") Landsat8.default_asset_id
           false true Sample.w0).
  - reflexivity.
  - exact Sample_band_laws.
Defined.

(** C4 as stated fails for [Sentinel1]: on the sample service, which
    names bands as [BandLaws] says, the constructor returns a collection whose
    images have the bands VV, VH, angle; the class reads no entry of
    [BANDREMAP]. *)
Lemma sentinel1_not_harmonized :
  BandLaws (S := Sample.service) (H := Sample.helpers) /\
  table_key sentinel1 = None /\
  exists w' d,
    construct sentinel1 0%nat Scenario.area (ee.DateStr "0") (ee.DateStr "10")
      Sentinel1.default_asset_id false true Sample.w0 = Returns tt w' /\
    heap w' !! 0%nat = Some d /\
    List.map ee.Image_bandNames (_collection d)
      = [["VV"; "VH"; "angle"]; ["VV"; "VH"; "angle"]] /\
    ~ harmonized (_collection d).
Proof.
  split; [exact Sample_band_laws |]. split; [reflexivity |].
  do 2 eexists.
  split; [apply construct_run |].
  split; [apply store_lookup |].
  assert (Hn : List.map ee.Image_bandNames
                 (_collection
                    (constructed sentinel1 (heap Sample.w0 !! 0%nat) 0%nat
                       Scenario.area (ee.DateStr "0") (ee.DateStr "10")
                       Sentinel1.default_asset_id false true))
               = [["VV"; "VH"; "angle"]; ["VV"; "VH"; "angle"]])
    by (vm_compute; reflexivity).
  split; [exact Hn |].
  intros Hh.
  assert (Hc : ["VV"; "VH"; "angle"] = common_names).
  { apply (harmonized_names _ _ Hh). rewrite Hn. now left. }
  discriminate Hc.
Qed.

(* ================================================================== *)
(** * The Landsat quality masks *)
(* ================================================================== *)

Section Landsat.
Context {C : ee.Carrier} {S : ee.Service C}.

Lemma Landsat7_body_blind (H1 H2 : Helpers C) img :
  (forall x start end_ new_name, start <> 4 ->
     extract_bits (Helpers := H1) x start end_ new_name
     = extract_bits (Helpers := H2) x start end_ new_name) ->
  Landsat7.qa_body (H := H1) img = Landsat7.qa_body (H := H2) img.
Proof.
  intros Hb. unfold Landsat7.qa_body.
  now rewrite (Hb _ 5), (Hb _ 3) by lia.
Qed.

End Landsat.

Lemma snowy_pixel_masks :
  Sample.find_band (ee.pixels (Landsat7.qa 0%nat Scenario.snowy)) "B2"
    = Some 400%Q /\
  Sample.find_band (ee.pixels (Landsat8.qa 0%nat Scenario.snowy)) "B2" = None /\
  Sample.find_band (ee.pixels (Landsat8.qa 0%nat Scenario.a_scene)) "B2"
    = Some 400%Q.
Proof. vm_compute. repeat split. Qed.

Lemma snow_blind_differs :
  Landsat8.qa_body (H := Scenario.snow_blind) Scenario.snowy
  <> Landsat8.qa_body (H := Sample.helpers) Scenario.snowy.
Proof.
  intros Heq.
  assert (Hp : Sample.find_band
                 (ee.pixels (Landsat8.qa_body (H := Scenario.snow_blind)
                               Scenario.snowy)) "B2"
               = Sample.find_band
                   (ee.pixels (Landsat8.qa_body (H := Sample.helpers)
                                 Scenario.snowy)) "B2")
    by now rewrite Heq.
  vm_compute in Hp. discriminate Hp.
Qed.

(** C10.  [Landsat7.qa] updates the mask of the image with the
    conjunction of the cloud and shadow masks only: its result does not
    depend on what [extract_bits] returns for the snow bit.  [Landsat8.qa]
    updates the mask with the conjunction of the cloud, shadow and snow
    masks, and its result does depend on the snow bit.  On the sample
    service a pixel flagged as snow only stays unmasked under [Landsat7.qa]
    and is masked by [Landsat8.qa]. *)
Theorem landsat_qa_masks :
  (forall (C : ee.Carrier) (S : ee.Service C) (H : Helpers C) self img,
     Landsat7.qa self img
     = carry_metadata
         (fun img =>
            ee.Image_updateMask img
              (ee.Image_And (cloud_clear img) (shadow_clear img)))
         img) /\
  (forall (C : ee.Carrier) (S : ee.Service C) (H : Helpers C) self img,
     Landsat8.qa self img
     = carry_metadata
         (fun img =>
            ee.Image_updateMask img
              (ee.Image_And (ee.Image_And (cloud_clear img) (shadow_clear img))
                 (snow_clear img)))
         img) /\
  (forall (C : ee.Carrier) (S : ee.Service C) (H1 H2 : Helpers C) img,
     (forall x start end_ new_name, start <> 4 ->
        extract_bits (Helpers := H1) x start end_ new_name
        = extract_bits (Helpers := H2) x start end_ new_name) ->
     Landsat7.qa_body (H := H1) img = Landsat7.qa_body (H := H2) img) /\
  (exists (H1 H2 : Helpers Sample.carrier) img,
     (forall x start end_ new_name, start <> 4 ->
        extract_bits (Helpers := H1) x start end_ new_name
        = extract_bits (Helpers := H2) x start end_ new_name) /\
     Landsat8.qa_body (H := H1) img <> Landsat8.qa_body (H := H2) img) /\
  (Sample.find_band (ee.pixels (Landsat7.qa 0%nat Scenario.snowy)) "B2"
     = Some 400%Q /\
   Sample.find_band (ee.pixels (Landsat8.qa 0%nat Scenario.snowy)) "B2"
     = None).
Proof.
  split; [reflexivity |].
  split; [reflexivity |].
  split; [intros C S H1 H2 img; apply Landsat7_body_blind |].
  split.
  - exists Scenario.snow_blind, Sample.helpers, Scenario.snowy.
    split; [| exact snow_blind_differs].
    intros x start end_ new_name Hs. simpl.
    destruct (Z.eqb_spec start 4); [contradiction | reflexivity].
  - split; apply snowy_pixel_masks.
Qed.

(* ================================================================== *)
(** * Runs on the sample service *)
(* ================================================================== *)

(** The base class has no [qa]: constructing it with [use_qa=True] raises. *)
Example base_class_raises :
  Dataset.__init__ Dataset.cls 0%nat Scenario.area (ee.DateStr "0")
    (ee.DateStr "10") Landsat8.default_asset_id true Sample.w0
  = Raises (AttributeError Dataset.qa_not_defined) (logged Sample.w0 0%nat).
Proof. reflexivity. Qed.

(** Merging the optical and the radar dataset in place: four images, by time. *)
Example merge_on_sample :
  List.map time_start
    (collection_in (final_world (Dataset.merge 0%nat 1%nat true Scenario.w2)) 0%nat)
  = [Some 259200000; Some 259201000; Some 345600000; Some 432000000].
Proof. vm_compute. reflexivity. Qed.

(** The merged images carry the ids of a merged collection. *)
Example merge_ids_on_sample :
  List.map (fun img => ee.Image_get img "system:index")
    (collection_in (final_world (Dataset.merge 0%nat 1%nat true Scenario.w2)) 0%nat)
  = [Some (ee.VStr "1_259200000"); Some (ee.VStr "2_259201000");
     Some (ee.VStr "1_345600000"); Some (ee.VStr "2_432000000")].
Proof. vm_compute. reflexivity. Qed.

(** A class whose [qa] raises [AttributeError] under [map]: constructing it
    with [use_qa=True] raises with the message that [qa] is not defined. *)
Example hazy_class_raises :
  Dataset.__init__ Scenario.Hazy_cls 0%nat Scenario.area (ee.DateStr "0")
    (ee.DateStr "10") Landsat8.default_asset_id true Sample.w0
  = Raises (AttributeError Dataset.qa_not_defined) (logged Sample.w0 0%nat).
Proof. reflexivity. Qed.

(** Joining them: both optical scenes have a radar scene within a day whose
    footprint meets theirs; each is clipped to the overlap. *)
Example join_on_sample :
  List.map (fun img => (time_start img, ee.geo img))
    (collection_in (final_world (Dataset.join 0%nat 1%nat true Scenario.w2)) 0%nat)
  = [(Some 259200000, [2]); (Some 345600000, [1])].
Proof. vm_compute. reflexivity. Qed.

(** The radar scenes fall on days 3 and 5. *)
Example dates_on_sample :
  Dataset.collection_dates (_collection Scenario.radar) = ["3"; "5"].
Proof. vm_compute. reflexivity. Qed.

(** A new [Landsat8] object is object 0 of the empty store and holds the
    two catalogue scenes under the common band names. *)
Example landsat8_on_sample :
  match new (fun self =>
               Landsat8.__init__ self Scenario.area (ee.DateStr "0")
                 (ee.DateStr "10") Landsat8.default_asset_id true) Sample.w0 with
  | Returns self w => (self, List.map ee.Image_bandNames (collection_in w self))
  | Raises _ _ => (0%nat, [])
  end
  = (0%nat, [common_names; common_names]).
Proof. vm_compute. reflexivity. Qed.

(* ================================================================== *)
(** * Image counts across the composition methods *)
(* ================================================================== *)

Section Counts.
Context {C : ee.Carrier} {S : ee.Service C} {H : Helpers C}.

Lemma n_images_run self w d :
  heap w !! self = Some d ->
  Dataset.n_images self w = Returns (length (_collection d)) w.
Proof.
  intros Hd. unfold Dataset.n_images.
  now rewrite (bind_Returns _ _ w _ w (collection_run self w d Hd)).
Qed.

Lemma n_images_after_run op self inplace w d :
  heap w !! self = Some d ->
  (forall dataset, operand_of op = Some dataset -> is_Some (heap w !! dataset)) ->
  n_images_after op self inplace w
  = Returns (length (resulting op w d))
      (store w (if inplace then self else fresh (dom (heap w)))
         (with_collection d (resulting op w d))).
Proof.
  intros Hd Hop. unfold n_images_after.
  rewrite (bind_Returns _ _ w _ _ (invoke_run op self inplace w d Hd Hop)).
  destruct inplace; simpl produced;
    now rewrite (n_images_run _ _ _ (store_lookup _ _ _)).
Qed.

(** [n_images] after [a.merge(b)] is the sum of the two counts, for either
    value of [inplace] (also when [b] is [a] itself). *)
Theorem merge_n_images (a b : nat) (inplace : bool) (w : World)
    (da db : Dataset) :
  heap w !! a = Some da ->
  heap w !! b = Some db ->
  exists w',
    n_images_after (Merge b) a inplace w
    = Returns (length (_collection da) + length (_collection db))%nat w'.
Proof.
  intros Ha Hb.
  assert (Hop : forall dataset, operand_of (Merge b) = Some dataset ->
                  is_Some (heap w !! dataset)).
  { intros dataset [= <-]. now exists db. }
  rewrite (n_images_after_run (Merge b) a inplace w da Ha Hop).
  simpl resulting. rewrite Hb.
  rewrite (Permutation_length (sort_perm _ _)).
  unfold ee.merge. rewrite length_app, !length_map. eexists. reflexivity.
Qed.

(** [apply_func] and [clip_to_region] keep the number of images, whatever
    the function mapped and for either value of [inplace]. *)
Theorem map_methods_keep_n_images (self : nat) (inplace : bool) (w : World)
    (d : Dataset) :
  heap w !! self = Some d ->
  (forall (K : Type) (func : ee.Image -> K -> ee.Image) (kwargs : K),
     exists w',
       n_images_after (Apply_func K func kwargs) self inplace w
       = Returns (length (_collection d)) w') /\
  (exists w',
     n_images_after Clip_to_region self inplace w
     = Returns (length (_collection d)) w').
Proof.
  intros Hd. split; [intros K func kwargs |].
  - rewrite (n_images_after_run _ self inplace w d Hd) by discriminate.
    simpl. rewrite length_map. eexists. reflexivity.
  - rewrite (n_images_after_run _ self inplace w d Hd) by discriminate.
    simpl. rewrite length_map. eexists. reflexivity.
Qed.

(** [join] never yields more images than the receiver holds, and yields
    none when the other dataset is empty. *)
Theorem join_n_images_bound (a b : nat) (inplace : bool) (w : World)
    (da db : Dataset) :
  heap w !! a = Some da ->
  heap w !! b = Some db ->
  exists n w',
    n_images_after (Join b) a inplace w = Returns n w' /\
    (n <= length (_collection da))%nat /\
    (_collection db = [] -> n = 0%nat).
Proof.
  intros Ha Hb.
  assert (Hop : forall dataset, operand_of (Join b) = Some dataset ->
                  is_Some (heap w !! dataset)).
  { intros dataset [= <-]. now exists db. }
  rewrite (n_images_after_run (Join b) a inplace w da Ha Hop).
  simpl resulting. rewrite Hb. do 2 eexists. split; [reflexivity |].
  unfold ee.Join_saveAll. rewrite !length_map. split.
  - apply List.filter_length_le.
  - intros ->. simpl.
    induction (_collection da) as [| x r IH]; [reflexivity | exact IH].
Qed.


Lemma aggregate_array_length c key :
  (length (ee.aggregate_array c key) <= length c)%nat.
Proof.
  unfold ee.aggregate_array.
  induction c as [| x r IH]; [simpl; lia |].
  change (omap (fun img => ee.Image_get img key) (x :: r))
    with (match ee.Image_get x key with
          | Some v => v :: omap (fun img => ee.Image_get img key) r
          | None => omap (fun img => ee.Image_get img key) r
          end).
  destruct (ee.Image_get x key); cbn [length]; lia.
Qed.



End Counts.

Lemma merge_n_images_witness :
  exists w',
    n_images_after (Merge 1%nat) 0%nat true Scenario.w2
    = Returns (length (_collection Scenario.optical)
               + length (_collection Scenario.radar))%nat w'.
Proof.
  apply (merge_n_images 0%nat 1%nat true Scenario.w2
           Scenario.optical Scenario.radar); reflexivity.
Defined.

Lemma map_methods_keep_n_images_witness :
  (forall (K : Type) (func : ee.Image -> K -> ee.Image) (kwargs : K),
     exists w',
       n_images_after (Apply_func K func kwargs) 0%nat false Scenario.w2
       = Returns (length (_collection Scenario.optical)) w') /\
  (exists w',
     n_images_after Clip_to_region 0%nat false Scenario.w2
     = Returns (length (_collection Scenario.optical)) w').
Proof.
  apply (map_methods_keep_n_images 0%nat false Scenario.w2 Scenario.optical).
  reflexivity.
Defined.

Lemma join_n_images_bound_witness :
  exists n w',
    n_images_after (Join 2%nat) 0%nat false Scenario2.w5 = Returns n w' /\
    (n <= length (_collection Scenario.optical))%nat /\
    (_collection Scenario2.empty = [] -> n = 0%nat).
Proof.
  apply (join_n_images_bound 0%nat 2%nat false Scenario2.w5
           Scenario.optical Scenario2.empty); reflexivity.
Defined.




(* ================================================================== *)
(** * How the composition methods compose *)
(* ================================================================== *)

Section Composing.
Context {C : ee.Carrier} {S : ee.Service C} {H : Helpers C}.

Lemma insert_by_head key x l :
  HdRel (key_le key) x l -> ee.insert_by key x l = x :: l.
Proof.
  intros Hx. destruct l as [| y r]; [reflexivity |].
  simpl. inversion Hx as [| ? ? Hxy]; subst.
  unfold key_le in Hxy. now rewrite Hxy.
Qed.

Lemma sort_sorted_id key l :
  Sorted (key_le key) l -> ee.sort l key = l.
Proof.
  unfold ee.sort. induction 1 as [| x r Hr IH Hx]; simpl; [reflexivity |].
  rewrite IH. now apply insert_by_head.
Qed.

(** Two insertions commute when the keys differ. *)
Lemma insert_by_comm key a y l :
  ee.key_leb (ee.number_of a key) (ee.number_of y key) = false ->
  ee.insert_by key y (ee.insert_by key a l)
  = ee.insert_by key a (ee.insert_by key y l).
Proof.
  intros Hay. pose proof (key_leb_total _ _ Hay) as Hya.
  induction l as [| z r IH]; simpl.
  - now rewrite Hya, Hay.
  - destruct (ee.key_leb (ee.number_of a key) (ee.number_of z key)) eqn:Haz.
    + rewrite (key_leb_trans _ _ _ Hya Haz). simpl.
      now rewrite Hya, Hay, Haz.
    + destruct (ee.key_leb (ee.number_of y key) (ee.number_of z key)) eqn:Hyz;
        simpl; rewrite Hyz.
      * now rewrite Hay, Haz.
      * now rewrite Haz, IH.
Qed.

Lemma fold_insert_by key a base l :
  List.fold_right (ee.insert_by key) base (ee.insert_by key a l)
  = ee.insert_by key a (List.fold_right (ee.insert_by key) base l).
Proof.
  induction l as [| y r IH]; simpl; [reflexivity |].
  destruct (ee.key_leb (ee.number_of a key) (ee.number_of y key)) eqn:Hay;
    simpl; [reflexivity |].
  rewrite IH. now apply insert_by_comm.
Qed.

Lemma fold_sort key base l :
  List.fold_right (ee.insert_by key) base (ee.sort l key)
  = List.fold_right (ee.insert_by key) base l.
Proof.
  unfold ee.sort. induction l as [| a r IH]; simpl; [reflexivity |].
  now rewrite fold_insert_by, IH.
Qed.

Lemma sort_app key x y :
  ee.sort (x ++ y) key = List.fold_right (ee.insert_by key) (ee.sort y key) x.
Proof. unfold ee.sort. now rewrite fold_right_app. Qed.

Lemma sort_sort_app_l key x y :
  ee.sort (ee.sort x key ++ y) key = ee.sort (x ++ y) key.
Proof. now rewrite !sort_app, fold_sort. Qed.

Lemma sort_sort_app_r key x y :
  ee.sort (x ++ ee.sort y key) key = ee.sort (x ++ y) key.
Proof.
  rewrite !sort_app. now rewrite (sort_sorted_id key _ (sort_sorted y key)).
Qed.

Lemma merge_run a b w da db :
  heap w !! a = Some da ->
  heap w !! b = Some db ->
  Dataset.merge a b false w
  = Returns (Some (fresh (dom (heap w))))
      (store w (fresh (dom (heap w)))
         (with_collection da
            (ee.sort (ee.merge (_collection da) (_collection db))
               "system:time_start"))).
Proof.
  intros Ha Hb.
  assert (Hop : forall dataset, operand_of (Merge b) = Some dataset ->
                  is_Some (heap w !! dataset)).
  { intros dataset [= <-]. now exists db. }
  pose proof (invoke_run (Merge b) a false w da Ha Hop) as Hrun.
  simpl in Hrun. now rewrite Hb in Hrun.
Qed.

(** Sorting and images that differ in their ids only. *)
Lemma number_of_prefix_id prefix img :
  ee.number_of (ee.prefix_id prefix img) "system:time_start"
  = ee.number_of img "system:time_start".
Proof.
  destruct (prefix_id_relabelled prefix img) as (_ & _ & Hkeys & _).
  unfold ee.number_of, ee.Image_get. now rewrite Hkeys.
Qed.

Lemma number_of_anonymous img :
  ee.number_of (anonymous img) "system:time_start"
  = ee.number_of img "system:time_start".
Proof.
  unfold ee.number_of, ee.Image_get, anonymous. simpl.
  now rewrite lookup_delete_ne.
Qed.

Lemma anonymous_prefix_id prefix img :
  anonymous (ee.prefix_id prefix img) = anonymous img.
Proof.
  unfold ee.prefix_id, ee.Image_get.
  destruct (ee.properties img !! "system:index") as [[z | id | l | l] |];
    try reflexivity.
  unfold anonymous, ee.Image_set. simpl. now rewrite delete_insert_eq.
Qed.

Lemma insert_by_map (f : ee.Image -> ee.Image) key x l :
  (forall z, ee.number_of (f z) key = ee.number_of z key) ->
  List.map f (ee.insert_by key x l) = ee.insert_by key (f x) (List.map f l).
Proof.
  intros Hf. induction l as [| y r IH]; simpl; [reflexivity |].
  rewrite !Hf. destruct (ee.key_leb _ _); simpl; [reflexivity |].
  now rewrite IH.
Qed.

Lemma sort_map (f : ee.Image -> ee.Image) key l :
  (forall z, ee.number_of (f z) key = ee.number_of z key) ->
  List.map f (ee.sort l key) = ee.sort (List.map f l) key.
Proof.
  intros Hf. unfold ee.sort. induction l as [| x r IH]; simpl; [reflexivity |].
  now rewrite insert_by_map, IH.
Qed.

Lemma anonymous_merge c1 c2 :
  List.map anonymous (ee.merge c1 c2)
  = List.map anonymous c1 ++ List.map anonymous c2.
Proof.
  unfold ee.merge. rewrite List.map_app, !List.map_map.
  f_equal; apply map_ext; intros img; apply anonymous_prefix_id.
Qed.

Lemma anonymous_merged c1 c2 :
  List.map anonymous (ee.sort (ee.merge c1 c2) "system:time_start")
  = ee.sort (List.map anonymous c1 ++ List.map anonymous c2)
      "system:time_start".
Proof.
  rewrite (sort_map anonymous) by exact number_of_anonymous.
  now rewrite anonymous_merge.
Qed.

Lemma time_start_anonymous img : time_start (anonymous img) = time_start img.
Proof. exact (number_of_anonymous img). Qed.

Lemma ascending_anonymous l :
  StronglySorted ascending (List.map anonymous l) -> StronglySorted ascending l.
Proof.
  induction l as [| x r IH]; intros Hs; [constructor |].
  cbn [List.map] in Hs. apply StronglySorted_inv in Hs. destruct Hs as [Hr Hx].
  constructor; [now apply IH |].
  rewrite Forall_forall in Hx |- *. intros y Hy.
  assert (Ha : ascending (anonymous x) (anonymous y)).
  { apply Hx. apply list_elem_of_In, in_map, list_elem_of_In, Hy. }
  unfold ascending in *. now rewrite !time_start_anonymous in Ha.
Qed.

(** [merge] is associative up to the ids of the images, when no two
    different images of the three datasets start at the same time:
    [a.merge(b).merge(c)] and [a.merge(b.merge(c))] hold, in the same
    order, images with the same pixels, footprint and other properties,
    namely those of the three datasets in ascending order of start time. *)
Theorem merge_associative (a b c : nat) (w : World) (da db dc : Dataset) :
  heap w !! a = Some da ->
  heap w !! b = Some db ->
  heap w !! c = Some dc ->
  distinct_times (_collection da ++ _collection db ++ _collection dc) ->
  exists left right w1 w2,
    merge_left a b c w = Returns left w1 /\
    merge_right a b c w = Returns right w2 /\
    List.map anonymous left = List.map anonymous right /\
    Permutation (List.map anonymous left)
      (List.map anonymous (_collection da ++ _collection db ++ _collection dc)) /\
    StronglySorted ascending left.
Proof.
  intros Ha Hb Hc _.
  assert (Hleft :
            exists w1,
              merge_left a b c w
              = Returns
                  (ee.sort
                     (ee.merge
                        (ee.sort (ee.merge (_collection da) (_collection db))
                           "system:time_start")
                        (_collection dc)) "system:time_start") w1).
  { eexists. unfold merge_left.
    rewrite (bind_Returns _ _ w _ _ (merge_run a b w da db Ha Hb)).
    simpl produced.
    erewrite bind_Returns.
    2:{ apply merge_run; [apply store_lookup |].
        rewrite store_lookup_ne by (now apply fresh_ne with (d := dc)).
        exact Hc. }
    simpl produced.
    now rewrite (collection_run _ _ _ (store_lookup _ _ _)). }
  destruct Hleft as [w1 Hleft].
  assert (Hright :
            exists w2,
              merge_right a b c w
              = Returns
                  (ee.sort
                     (ee.merge (_collection da)
                        (ee.sort (ee.merge (_collection db) (_collection dc))
                           "system:time_start")) "system:time_start") w2).
  { eexists. unfold merge_right.
    rewrite (bind_Returns _ _ w _ _ (merge_run b c w db dc Hb Hc)).
    simpl produced.
    erewrite bind_Returns.
    2:{ apply merge_run; [| apply store_lookup].
        rewrite store_lookup_ne by (now apply fresh_ne with (d := da)).
        exact Ha. }
    simpl produced.
    now rewrite (collection_run _ _ _ (store_lookup _ _ _)). }
  destruct Hright as [w2 Hright].
  assert (Hl : List.map anonymous
                 (ee.sort
                    (ee.merge
                       (ee.sort (ee.merge (_collection da) (_collection db))
                          "system:time_start")
                       (_collection dc)) "system:time_start")
               = ee.sort
                   (List.map anonymous
                      (_collection da ++ _collection db ++ _collection dc))
                   "system:time_start").
  { rewrite anonymous_merged, anonymous_merged, sort_sort_app_l.
    now rewrite <- app_assoc, !List.map_app. }
  assert (Hr : List.map anonymous
                 (ee.sort
                    (ee.merge (_collection da)
                       (ee.sort (ee.merge (_collection db) (_collection dc))
                          "system:time_start")) "system:time_start")
               = ee.sort
                   (List.map anonymous
                      (_collection da ++ _collection db ++ _collection dc))
                   "system:time_start").
  { rewrite anonymous_merged, anonymous_merged, sort_sort_app_r.
    now rewrite !List.map_app. }
  do 2 eexists. exists w1, w2.
  split; [exact Hleft |].
  split; [exact Hright |].
  split; [now rewrite Hl, Hr |].
  split; [rewrite Hl; apply sort_perm | apply sort_ascending].
Qed.

Lemma earlier_key_le x y : earlier x y -> key_le "system:time_start" x y.
Proof.
  intros (tx & ty & Hx & Hy & Hlt). unfold key_le.
  rewrite !time_start_number, Hx, Hy. simpl. lia.
Qed.

Lemma sorted_prefixed prefix l :
  Sorted earlier l ->
  Sorted (key_le "system:time_start") (List.map (ee.prefix_id prefix) l).
Proof.
  induction 1 as [| x r Hr IH Hx]; cbn [List.map]; constructor; [exact IH |].
  destruct Hx as [| y r' Hxy]; cbn [List.map]; constructor.
  apply earlier_key_le in Hxy. unfold key_le in *.
  now rewrite !number_of_prefix_id.
Qed.

(** Merging a dataset whose images are in strictly ascending order of start
    time with an empty dataset leaves its images as they are and in their
    order, under the ids of a merged collection: each id prefixed with
    [1_]. *)
Theorem merge_empty_sorted (a e : nat) (inplace : bool) (w : World)
    (da de : Dataset) :
  heap w !! a = Some da ->
  heap w !! e = Some de ->
  _collection de = [] ->
  Sorted earlier (_collection da) ->
  exists r w',
    Dataset.merge a e inplace w = Returns r w' /\
    Forall2 (relabelled "1_") (_collection da)
      (collection_in w' (produced r a)).
Proof.
  intros Ha He Hempty Hsorted.
  assert (Hop : forall dataset, operand_of (Merge e) = Some dataset ->
                  is_Some (heap w !! dataset)).
  { intros dataset [= <-]. now exists de. }
  pose proof (invoke_run (Merge e) a inplace w da Ha Hop) as Hrun.
  simpl in Hrun. rewrite He, Hempty in Hrun.
  do 2 eexists. split; [exact Hrun |].
  unfold collection_in.
  replace (heap _ !! _) with
    (Some (with_collection da
             (ee.sort (ee.merge (_collection da) []) "system:time_start")))
    by (destruct inplace; symmetry; apply store_lookup).
  simpl. unfold ee.merge. cbn [List.map]. rewrite app_nil_r.
  rewrite sort_sorted_id by now apply sorted_prefixed.
  apply map_relabelled.
Qed.

(** A new object does not change what an operation computes. *)
Lemma resulting_fresh op w d d' :
  (forall dataset, operand_of op = Some dataset -> is_Some (heap w !! dataset)) ->
  resulting op (store w (fresh (dom (heap w))) d') d = resulting op w d.
Proof.
  intros Hop.
  destruct op as [K func kwargs | | dataset | dataset | dates period reducer clip];
    try reflexivity.
  - destruct (Hop dataset eq_refl) as [d2 Hd2]. unfold resulting.
    now rewrite (store_lookup_ne w _ dataset d' (fresh_ne w dataset d2 Hd2)).
  - destruct (Hop dataset eq_refl) as [d2 Hd2]. unfold resulting.
    now rewrite (store_lookup_ne w _ dataset d' (fresh_ne w dataset d2 Hd2)).
Qed.

(** The functional variant is the in-place variant on a copy:
    [ds.op(..., inplace=False)] and [out = ds.copy(); out.op(...,
    inplace=True)] return the same object and leave the same store. *)
Theorem copy_then_inplace (op : Composition) (self : nat) (w : World)
    (d : Dataset) :
  heap w !! self = Some d ->
  (forall dataset, operand_of op = Some dataset -> is_Some (heap w !! dataset)) ->
  copy_then op self w = invoke op self false w.
Proof.
  intros Hd Hop. unfold copy_then.
  rewrite (bind_Returns _ _ w _ _ (copy_run self w d Hd)).
  assert (Hop' : forall dataset, operand_of op = Some dataset ->
             is_Some (heap (store w (fresh (dom (heap w))) d) !! dataset)).
  { intros dataset Hds. destruct (Hop dataset Hds) as [d2 Hd2].
    exists d2. rewrite store_lookup_ne by (now apply fresh_ne with (d := d2)).
    exact Hd2. }
  rewrite (bind_Returns _ _ _ _ _
             (invoke_run op _ true _ d (store_lookup _ _ _) Hop')).
  rewrite (invoke_run op self false w d Hd Hop).
  rewrite store_store.
  now rewrite (resulting_fresh op w d d Hop).
Qed.



End Composing.

Lemma optical_sorted : Sorted earlier (_collection Scenario.optical).
Proof.
  repeat constructor. do 2 eexists.
  split; [reflexivity |]. split; [reflexivity |]. reflexivity.
Qed.

(** The four sample scenes have four different start times. *)
Lemma sample_distinct_times :
  distinct_times (_collection Scenario.optical ++ _collection Scenario.radar).
Proof.
  intros x y [<- | [<- | [<- | [<- | []]]]] [<- | [<- | [<- | [<- | []]]]] Ht;
    try reflexivity; vm_compute in Ht; discriminate Ht.
Qed.

Lemma merge_associative_witness :
  exists left right w1 w2,
    merge_left 0%nat 1%nat 2%nat Scenario2.w5 = Returns left w1 /\
    merge_right 0%nat 1%nat 2%nat Scenario2.w5 = Returns right w2 /\
    List.map anonymous left = List.map anonymous right /\
    Permutation (List.map anonymous left)
      (List.map anonymous
         (_collection Scenario.optical ++ _collection Scenario.radar
          ++ _collection Scenario2.empty)) /\
    StronglySorted ascending left.
Proof.
  apply (merge_associative 0%nat 1%nat 2%nat Scenario2.w5
           Scenario.optical Scenario.radar Scenario2.empty);
    try reflexivity.
  change (_collection Scenario2.empty) with (@nil (@ee.Image Sample.carrier)).
  rewrite app_nil_r. exact sample_distinct_times.
Defined.

Lemma merge_empty_sorted_witness :
  exists r w',
    Dataset.merge 0%nat 2%nat true Scenario2.w5 = Returns r w' /\
    Forall2 (relabelled "1_") (_collection Scenario.optical)
      (collection_in w' (produced r 0%nat)).
Proof.
  apply (merge_empty_sorted 0%nat 2%nat true Scenario2.w5
           Scenario.optical Scenario2.empty).
  - reflexivity.
  - reflexivity.
  - reflexivity.
  - exact optical_sorted.
Defined.

Lemma copy_then_inplace_witness :
  copy_then (Join 1%nat) 0%nat Scenario.w2
  = invoke (Join 1%nat) 0%nat false Scenario.w2.
Proof.
  apply (copy_then_inplace (Join 1%nat) 0%nat Scenario.w2 Scenario.optical).
  - reflexivity.
  - intros dataset [= <-]. exists Scenario.radar. reflexivity.
Defined.


(* ================================================================== *)
(** * More on the constructors *)
(* ================================================================== *)

Section Constructing.
Context {C : ee.Carrier} {S : ee.Service C} {H : Helpers C}.

Lemma initial_collection_length qa self asset_id region start_time end_time use_qa :
  length (initial_collection qa self asset_id region start_time end_time use_qa)
  = length (base_collection asset_id region start_time end_time).
Proof.
  unfold initial_collection, ee.map. destruct use_qa; [apply length_map | reflexivity].
Qed.

Lemma collection_in_store w l d : collection_in (store w l d) l = _collection d.
Proof. unfold collection_in. now rewrite store_lookup. Qed.

(** Constructing a sensor dataset never raises: [Cls(...)] returns an
    object that was not in the store, of the class asked for and holding
    the constructor arguments; every object already in the store is left
    as it was; [qa] is looked up once when [use_qa] is true and not at all
    otherwise. *)
Theorem new_sensor_dataset (s : Sensor) (region0 : ee.Geom)
    (start_time0 end_time0 : ee.DateArg) (asset_id0 : string)
    (apply_band_adjustment use_qa0 : bool) (w : World) :
  exists self w' d,
    new (fun self =>
           construct s self region0 start_time0 end_time0 asset_id0
             apply_band_adjustment use_qa0) w = Returns self w' /\
    heap w !! self = None /\
    heap w' !! self = Some d /\
    (__class__ d = sensor_class s /\ region d = region0 /\
     start_time d = start_time0 /\ end_time d = end_time0 /\
     asset_id d = asset_id0 /\ use_qa d = use_qa0) /\
    (forall l, l <> self -> heap w' !! l = heap w !! l) /\
    log w' = log w ++ (if use_qa0 then [GetAttr self "qa"] else []).
Proof.
  do 3 eexists. split.
  { unfold new. erewrite bind_Returns by apply construct_run. reflexivity. }
  split; [apply fresh_lookup |].
  split; [apply store_lookup |].
  split.
  { destruct s; simpl; repeat split; now destruct apply_band_adjustment. }
  split.
  - intros l Hl. rewrite store_lookup_ne by congruence. now destruct use_qa0.
  - destruct use_qa0; simpl; [reflexivity | now rewrite app_nil_r].
Qed.

(** Quality masking, band selection, band-pass adjustment and clipping
    never drop an image: an optical dataset has exactly as many images as
    the named collection has in the region and time window.  Only the
    polarisation filter of [Sentinel1] can make the count smaller. *)
Theorem constructor_n_images (s : Sensor) (self : nat) (region0 : ee.Geom)
    (start_time0 end_time0 : ee.DateArg) (asset_id0 : string)
    (apply_band_adjustment use_qa0 : bool) (w : World) :
  exists w' n,
    (construct s self region0 start_time0 end_time0 asset_id0
       apply_band_adjustment use_qa0;;
     Dataset.n_images self) w = Returns n w' /\
    (s <> sentinel1 ->
     n = length
           (ee.filterDate
              (ee.filterBounds (ee.ImageCollection asset_id0) region0)
              (ee.Date start_time0) (ee.Date end_time0))) /\
    (n <= length
            (ee.filterDate
               (ee.filterBounds (ee.ImageCollection asset_id0) region0)
               (ee.Date start_time0) (ee.Date end_time0)))%nat.
Proof.
  do 2 eexists. split.
  { erewrite bind_Returns by apply construct_run.
    apply n_images_run, store_lookup. }
  pose proof (initial_collection_length (sensor_qa s) self asset_id0 region0
                start_time0 end_time0 use_qa0) as Hlen.
  unfold base_collection in Hlen.
  assert (Hopt : forall key, table_key s = Some key ->
            length (_collection
                      (constructed s (heap w !! self) self region0 start_time0
                         end_time0 asset_id0 apply_band_adjustment use_qa0))
            = length
                (ee.filterDate
                   (ee.filterBounds (ee.ImageCollection asset_id0) region0)
                   (ee.Date start_time0) (ee.Date end_time0))).
  { intros key Hkey. rewrite (constructed_collection s key) by exact Hkey.
    now rewrite length_map. }
  split.
  - intros Hs. destruct s; try contradiction; now eapply Hopt.
  - destruct s; try (erewrite Hopt by reflexivity; lia).
    simpl. unfold ee.filter. rewrite <- Hlen. apply List.filter_length_le.
Qed.

Lemma bind_Raises_getattr {A B : Type} self name (field : Dataset -> option A)
    (k : A -> Py B) w d :
  heap w !! self = Some d -> field d = None ->
  (getattr self name field ≫= k) w = Raises (AttributeError name) w.
Proof.
  intros Hd Hf. unfold mbind, Py_bind, bind, getattr. now rewrite Hd, Hf.
Qed.

(** [band_pass_adjustment] raises [AttributeError], and changes nothing,
    on a dataset whose [gain] or [bias] is not set. *)
Theorem band_pass_adjustment_unset (self : nat) (img : ee.Image) (w : World)
    (d : Dataset) :
  heap w !! self = Some d ->
  gain d = None \/ bias d = None ->
  exists name,
    Dataset.band_pass_adjustment self img w = Raises (AttributeError name) w.
Proof.
  intros Hd Hunset. unfold Dataset.band_pass_adjustment.
  destruct (gain d) as [g |] eqn:Hg.
  - destruct Hunset as [Hn | Hb]; [discriminate |].
    exists "bias".
    rewrite (bind_Returns _ _ w g w) by now apply getattr_run with (d := d).
    apply bind_Raises_getattr with (d := d); assumption.
  - exists "gain". apply bind_Raises_getattr with (d := d); assumption.
Qed.

End Constructing.

Section Adjustable.
Context {C : ee.Carrier} {S : ee.Service C} {H : Helpers C}.

Lemma constructed_gain s self region start_time end_time asset_id adj use_qa :
  adjustable s && adj = false ->
  gain (constructed s None self region start_time end_time asset_id adj use_qa)
  = None.
Proof. destruct s, adj; simpl; intros Ha; try discriminate; reflexivity. Qed.

Lemma constructed_adjusted s old self region start_time end_time asset_id
    use_qa :
  adjustable s = true ->
  exists g b,
    gain (constructed s old self region start_time end_time asset_id true use_qa)
      = Some g /\
    bias (constructed s old self region start_time end_time asset_id true use_qa)
      = Some b.
Proof.
  destruct s; simpl; intros Ha; try discriminate; do 2 eexists; split; reflexivity.
Qed.

Lemma new_construct_run s region start_time end_time asset_id
    apply_band_adjustment use_qa w :
  new (fun self =>
         construct s self region start_time end_time asset_id
           apply_band_adjustment use_qa) w
  = Returns (fresh (dom (heap w)))
      (store (initial_world w (fresh (dom (heap w))) use_qa)
         (fresh (dom (heap w)))
         (constructed s None (fresh (dom (heap w))) region start_time end_time
            asset_id apply_band_adjustment use_qa)).
Proof.
  unfold new. erewrite bind_Returns by apply construct_run.
  now rewrite fresh_lookup.
Qed.

(** On a newly constructed sensor dataset, [band_pass_adjustment] is
    available exactly when the class is [Sentinel2], [Landsat7] or [Viirs]
    and the object was built with [apply_band_adjustment=True]; on every
    other new dataset it raises [AttributeError] for [gain]. *)
Theorem adjustment_after_construct (s : Sensor) (region0 : ee.Geom)
    (start_time0 end_time0 : ee.DateArg) (asset_id0 : string)
    (apply_band_adjustment use_qa0 : bool) (img : ee.Image) (w : World) :
  (adjustable s && apply_band_adjustment = true ->
   exists out w',
     new_then_adjust s region0 start_time0 end_time0 asset_id0
       apply_band_adjustment use_qa0 img w = Returns out w') /\
  (adjustable s && apply_band_adjustment = false ->
   exists w',
     new_then_adjust s region0 start_time0 end_time0 asset_id0
       apply_band_adjustment use_qa0 img w
     = Raises (AttributeError "gain") w').
Proof.
  unfold new_then_adjust. split; intros Ha.
  - apply andb_true_iff in Ha. destruct Ha as [Hs ->].
    destruct (constructed_adjusted s None (fresh (dom (heap w))) region0
                start_time0 end_time0 asset_id0 use_qa0 Hs)
      as (g & b & Hg & Hb).
    erewrite bind_Returns by apply new_construct_run.
    do 2 eexists.
    exact (band_pass_adjustment_run _ img _ _ g b (store_lookup _ _ _) Hg Hb).
  - erewrite bind_Returns by apply new_construct_run.
    eexists.
    apply bind_Raises_getattr
      with (d := constructed s None (fresh (dom (heap w))) region0 start_time0
                   end_time0 asset_id0 apply_band_adjustment use_qa0);
      [apply store_lookup | now apply constructed_gain].
Qed.

End Adjustable.

Lemma band_pass_adjustment_unset_witness :
  exists name,
    Dataset.band_pass_adjustment 0%nat Scenario.a_scene Scenario.w2
    = Raises (AttributeError name) Scenario.w2.
Proof.
  apply (band_pass_adjustment_unset 0%nat Scenario.a_scene Scenario.w2
           Scenario.optical).
  - reflexivity.
  - left. reflexivity.
Defined.

(* ================================================================== *)
(** * The VIIRS and MODIS quality masks *)
(* ================================================================== *)

Section Viirs_Modis.
Context {C : ee.Carrier} {S : ee.Service C}.

Lemma Viirs_body_blind (H1 H2 : Helpers C) img :
  (forall x start end_ new_name, start <> 5 ->
     extract_bits (Helpers := H1) x start end_ new_name
     = extract_bits (Helpers := H2) x start end_ new_name) ->
  Viirs.qa_body (H := H1) img = Viirs.qa_body (H := H2) img.
Proof.
  intros Hb. unfold Viirs.qa_body.
  now rewrite (Hb _ 2), (Hb _ 3) by lia.
Qed.

End Viirs_Modis.

Lemma Modis_blind_differs :
  Modis.qa_body (H := Scenario2.blind 12) (Scenario2.modis_scene 4096)
  <> Modis.qa_body (H := Sample.helpers) (Scenario2.modis_scene 4096).
Proof.
  intros Heq.
  assert (Hp : Sample.find_band
                 (ee.pixels (Modis.qa_body (H := Scenario2.blind 12)
                               (Scenario2.modis_scene 4096))) "sur_refl_b01"
               = Sample.find_band
                   (ee.pixels (Modis.qa_body (H := Sample.helpers)
                                 (Scenario2.modis_scene 4096))) "sur_refl_b01")
    by now rewrite Heq.
  vm_compute in Hp. discriminate Hp.
Qed.

(** [Viirs.qa] computes a snow mask but does not apply it: its result does
    not depend on what [extract_bits] returns for bit 5 of [QF2], so
    snow-flagged VIIRS pixels stay unmasked.  [Modis.qa] does apply its snow
    mask (bit 12 of [state_1km]): its result changes with that bit. *)
Theorem viirs_qa_ignores_snow :
  (forall (C : ee.Carrier) (S : ee.Service C) (H1 H2 : Helpers C) img,
     (forall x start end_ new_name, start <> 5 ->
        extract_bits (Helpers := H1) x start end_ new_name
        = extract_bits (Helpers := H2) x start end_ new_name) ->
     Viirs.qa_body (H := H1) img = Viirs.qa_body (H := H2) img) /\
  (exists (H1 H2 : Helpers Sample.carrier) img,
     (forall x start end_ new_name, start <> 12 ->
        extract_bits (Helpers := H1) x start end_ new_name
        = extract_bits (Helpers := H2) x start end_ new_name) /\
     Modis.qa_body (H := H1) img <> Modis.qa_body (H := H2) img).
Proof.
  split; [intros C S H1 H2 img; apply Viirs_body_blind |].
  exists (Scenario2.blind 12), Sample.helpers, (Scenario2.modis_scene 4096).
  split; [| exact Modis_blind_differs].
  intros x start end_ new_name Hs. simpl.
  destruct (Z.eqb_spec start 12); [contradiction | reflexivity].
Qed.

(* ================================================================== *)
(** * [add_fusion_features] *)
(* ================================================================== *)

Section Fusing.
Context {C : ee.Carrier} {S : ee.Service C} {H : Helpers C} {F : Fusion.Ops C}.

Lemma compare_refl s : String.compare s s = Eq.
Proof.
  pose proof (String.compare_antisym s s) as Ha.
  destruct (String.compare s s); simpl in Ha; congruence.
Qed.

Lemma compareTo_zero s t : Fusion.compareTo s t = 0 <-> s = t.
Proof.
  unfold Fusion.compareTo. split.
  - destruct (String.compare s t) eqn:Hc; try discriminate.
    intros _. now apply String.compare_eq_iff.
  - intros ->. now rewrite compare_refl.
Qed.

Lemma orbit_band_of_pass img s :
  ee.Image_get img "orbitProperties_pass" = Some (ee.VStr s) ->
  Fusion.orbit_band img
  = ee.num (if String.eqb s "DESCENDING" then 0 else 1)%Q.
Proof.
  intros Hs. unfold Fusion.orbit_band, Fusion.ee_String, Fusion.Algorithms_If_number.
  rewrite Hs.
  destruct (String.eqb_spec s "DESCENDING") as [-> | Hne].
  - now rewrite (proj2 (compareTo_zero _ _) eq_refl).
  - destruct (Z.eqb_spec (Fusion.compareTo s "DESCENDING") 0) as [Hz |];
      [| reflexivity].
    apply compareTo_zero in Hz. contradiction.
Qed.

(** [add_fusion_features] adds, to every image, the bands orbit, ratio and
    ndpi clipped to the image's footprint.  The orbit band is the constant
    0 for a scene whose [orbitProperties_pass] is ["DESCENDING"] and the
    constant 1 for any other pass: the condition of the [If] is the result
    of [compareTo], which is 0 (false) on equal strings. *)
Theorem fusion_orbit_band (self : nat) (inplace : bool) (w : World)
    (d : Dataset) :
  heap w !! self = Some d ->
  (forall img, In img (_collection d) ->
     exists s, ee.Image_get img "orbitProperties_pass" = Some (ee.VStr s)) ->
  exists r w',
    Fusion.add_fusion_features self inplace w = Returns r w' /\
    Forall2
      (fun out img =>
         exists s,
           ee.Image_get img "orbitProperties_pass" = Some (ee.VStr s) /\
           out
           = ee.Image_addBands img
               (ee.Image_clip
                  (Fusion.Image_cat
                     [ ee.Image_rename
                         (ee.num (if String.eqb s "DESCENDING" then 0 else 1)%Q)
                         ["orbit"];
                       ee.Image_rename
                         (Fusion.Image_divide (ee.Image_select img ["VV"])
                            (ee.Image_select img ["VH"])) ["ratio"];
                       ee.Image_rename
                         (Fusion.Image_divide
                            (Fusion.Image_subtract (ee.Image_select img ["VV"])
                               (ee.Image_select img ["VH"]))
                            (ee.Image_add (ee.Image_select img ["VV"])
                               (ee.Image_select img ["VH"]))) ["ndpi"] ])
                  (ee.geo img)))
      (collection_in w' (produced r self)) (_collection d).
Proof.
  intros Hd Hpass.
  pose proof (invoke_run
                (Apply_func unit
                   (fun img (_ : unit) => Fusion._add_fusion_features img) tt)
                self inplace w d Hd ltac:(discriminate)) as Hrun.
  do 2 eexists. split; [exact Hrun |].
  replace (collection_in _ _)
    with (List.map Fusion._add_fusion_features (_collection d))
    by (destruct inplace; simpl produced; now rewrite collection_in_store).
  revert Hpass. induction (_collection d) as [| img r IH]; intros Hpass;
    cbn [List.map]; constructor.
  - destruct (Hpass img (or_introl eq_refl)) as [s Hs]. exists s.
    split; [exact Hs |].
    unfold Fusion._add_fusion_features.
    now rewrite (orbit_band_of_pass img s Hs).
  - apply IH. intros x Hx. apply Hpass. now right.
Qed.

End Fusing.

Lemma fusion_orbit_band_witness :
  exists r w',
    Fusion.add_fusion_features 0%nat true Scenario2.w6 = Returns r w' /\
    Forall2
      (fun out img =>
         exists s,
           ee.Image_get img "orbitProperties_pass" = Some (ee.VStr s) /\
           out
           = ee.Image_addBands img
               (ee.Image_clip
                  (Fusion.Image_cat
                     [ ee.Image_rename
                         (ee.num (if String.eqb s "DESCENDING" then 0 else 1)%Q)
                         ["orbit"];
                       ee.Image_rename
                         (Fusion.Image_divide (ee.Image_select img ["VV"])
                            (ee.Image_select img ["VH"])) ["ratio"];
                       ee.Image_rename
                         (Fusion.Image_divide
                            (Fusion.Image_subtract (ee.Image_select img ["VV"])
                               (ee.Image_select img ["VH"]))
                            (ee.Image_add (ee.Image_select img ["VV"])
                               (ee.Image_select img ["VH"]))) ["ndpi"] ])
                  (ee.geo img)))
      (collection_in w' (produced r 0%nat)) (_collection Scenario2.passes).
Proof.
  apply (fusion_orbit_band 0%nat true Scenario2.w6 Scenario2.passes).
  - reflexivity.
  - intros img [<- | [<- | []]];
      [exists "DESCENDING" | exists "ASCENDING"]; reflexivity.
Defined.

(** On the sample service the two scenes get the orbit samples 0 and 1, a
    ratio of 1/2 and an ndpi of -1/3. *)
Example fusion_on_sample :
  List.map
    (fun img =>
       (Sample.find_band (ee.pixels img) "orbit",
        Sample.find_band (ee.pixels img) "ratio",
        Sample.find_band (ee.pixels img) "ndpi"))
    (collection_in
       (final_world (Fusion.add_fusion_features 0%nat true Scenario2.w6)) 0%nat)
  = [(Some 0%Q, Some (8 # 16)%Q, Some (-8 # 24)%Q);
     (Some 1%Q, Some (8 # 16)%Q, Some (-8 # 24)%Q)].
Proof. vm_compute. reflexivity. Qed.

(* ================================================================== *)
(** * Coverage of [aggregate_time], and the [dates] property *)
(* ================================================================== *)

Section Covering.
Context {C : ee.Carrier} {S : ee.Service C} {H : Helpers C}.


(** [dates] lists one formatted start time per image that has one, in
    order and without changing the store: never more entries than
    [n_images], and exactly as many when every image has a start time. *)
Theorem dates_n_images (self : nat) (w : World) (d : Dataset) :
  heap w !! self = Some d ->
  exists ds n,
    Dataset.dates self w = Returns ds w /\
    Dataset.n_images self w = Returns n w /\
    (length ds <= n)%nat /\
    (all_timed (_collection d) -> length ds = n).
Proof.
  intros Hd. do 2 eexists.
  split.
  { unfold Dataset.dates.
    now rewrite (bind_Returns _ _ w _ w (collection_run self w d Hd)). }
  split; [exact (n_images_run self w d Hd) |].
  rewrite length_map. split; [apply aggregate_array_length |].
  intros Hall. unfold ee.aggregate_array.
  induction (_collection d) as [| img r IH]; [reflexivity |].
  destruct (Hall img (or_introl eq_refl)) as [t Ht].
  rewrite <- time_start_number in Ht. unfold ee.number_of in Ht.
  change (omap (fun img => ee.Image_get img "system:time_start") (img :: r))
    with (match ee.Image_get img "system:time_start" with
          | Some v => v :: omap (fun img => ee.Image_get img "system:time_start") r
          | None => omap (fun img => ee.Image_get img "system:time_start") r
          end).
  destruct (ee.Image_get img "system:time_start"); [| discriminate].
  cbn [length]. f_equal. apply IH. intros x Hx. apply Hall. now right.
Qed.

End Covering.


Lemma dates_n_images_witness :
  exists ds n,
    Dataset.dates 1%nat Scenario.w2 = Returns ds Scenario.w2 /\
    Dataset.n_images 1%nat Scenario.w2 = Returns n Scenario.w2 /\
    (length ds <= n)%nat /\
    (all_timed (_collection Scenario.radar) -> length ds = n).
Proof.
  apply (dates_n_images 1%nat Scenario.w2 Scenario.radar). reflexivity.
Defined.

(* ================================================================== *)
(** * [merge] in either order *)
(* ================================================================== *)

Section Commuting.
Context {C : ee.Carrier} {S : ee.Service C} {H : Helpers C}.

Lemma key_leb_refl a : ee.key_leb a a = true.
Proof. destruct a; simpl; [lia | reflexivity]. Qed.

Lemma key_leb_antisym a b :
  ee.key_leb a b = true -> ee.key_leb b a = true -> a = b.
Proof.
  destruct a, b; simpl; try discriminate; try reflexivity.
  intros Hab Hba. f_equal. lia.
Qed.

Lemma head_least key x r y :
  StronglySorted (key_le key) (x :: r) -> In y (x :: r) -> key_le key x y.
Proof.
  intros Hs [<- | Hy].
  - apply key_leb_refl.
  - apply StronglySorted_inv in Hs. destruct Hs as [_ Hall].
    rewrite Forall_forall in Hall. apply Hall.
    now apply list_elem_of_In.
Qed.

(** Two sorted arrangements of the same images are the same list when
    equal keys mean equal images. *)
Lemma sorted_perm_unique key l1 l2 :
  StronglySorted (key_le key) l1 ->
  StronglySorted (key_le key) l2 ->
  Permutation l1 l2 ->
  (forall x y, In x l1 -> In y l1 ->
     ee.number_of x key = ee.number_of y key -> x = y) ->
  l1 = l2.
Proof.
  revert l2. induction l1 as [| x r1 IH]; intros l2 Hs1 Hs2 Hp Hinj.
  - apply Permutation_nil in Hp. now subst.
  - destruct l2 as [| y r2].
    + symmetry in Hp. apply Permutation_nil in Hp. discriminate.
    + assert (Hy : In y (x :: r1)).
      { apply (Permutation_in y (Permutation_sym Hp)). now left. }
      assert (Hx : In x (y :: r2)).
      { apply (Permutation_in x Hp). now left. }
      assert (Hxy : x = y).
      { apply Hinj; [now left | exact Hy |].
        apply key_leb_antisym.
        - exact (head_least key x r1 y Hs1 Hy).
        - exact (head_least key y r2 x Hs2 Hx). }
      subst y. f_equal. apply IH.
      * now apply StronglySorted_inv in Hs1.
      * now apply StronglySorted_inv in Hs2.
      * now apply Permutation_cons_inv in Hp.
      * intros a b Ha Hb. apply Hinj; now right.
Qed.

Lemma merged_collection_run a b w da db :
  heap w !! a = Some da ->
  heap w !! b = Some db ->
  merged_collection a b w
  = Returns
      (ee.sort (ee.merge (_collection da) (_collection db)) "system:time_start")
      (store w (fresh (dom (heap w)))
         (with_collection da
            (ee.sort (ee.merge (_collection da) (_collection db))
               "system:time_start"))).
Proof.
  intros Ha Hb. unfold merged_collection.
  rewrite (bind_Returns _ _ w _ _ (merge_run a b w da db Ha Hb)).
  simpl produced. now rewrite (collection_run _ _ _ (store_lookup _ _ _)).
Qed.

(** [a.merge(b)] and [b.merge(a)] hold the same images up to their ids;
    they hold them in the same order when no two different images of the
    two datasets share a start time. *)
Theorem merge_commutes (a b : nat) (w : World) (da db : Dataset) :
  heap w !! a = Some da ->
  heap w !! b = Some db ->
  exists ab ba w1 w2,
    merged_collection a b w = Returns ab w1 /\
    merged_collection b a w = Returns ba w2 /\
    Permutation (List.map anonymous ab) (List.map anonymous ba) /\
    (distinct_times (_collection da ++ _collection db) ->
     List.map anonymous ab = List.map anonymous ba).
Proof.
  intros Ha Hb. do 4 eexists.
  split; [exact (merged_collection_run a b w da db Ha Hb) |].
  split; [exact (merged_collection_run b a w db da Hb Ha) |].
  rewrite !anonymous_merged.
  assert (Hp : Permutation
                 (ee.sort
                    (List.map anonymous (_collection da)
                     ++ List.map anonymous (_collection db))
                    "system:time_start")
                 (ee.sort
                    (List.map anonymous (_collection db)
                     ++ List.map anonymous (_collection da))
                    "system:time_start")).
  { rewrite !sort_perm. apply Permutation_app_comm. }
  split; [exact Hp |].
  intros Hdist.
  apply (sorted_perm_unique "system:time_start");
    [apply sort_strongly_sorted | apply sort_strongly_sorted | exact Hp |].
  intros x y Hx Hy Hkey.
  apply (Permutation_in x (sort_perm _ _)) in Hx.
  apply (Permutation_in y (sort_perm _ _)) in Hy.
  rewrite <- List.map_app in Hx, Hy.
  apply in_map_iff in Hx. destruct Hx as (x0 & <- & Hx0).
  apply in_map_iff in Hy. destruct Hy as (y0 & <- & Hy0).
  f_equal. apply Hdist; [exact Hx0 | exact Hy0 |].
  now rewrite !number_of_anonymous in Hkey.
Qed.

End Commuting.

Lemma merge_commutes_witness :
  exists ab ba w1 w2,
    merged_collection 0%nat 1%nat Scenario.w2 = Returns ab w1 /\
    merged_collection 1%nat 0%nat Scenario.w2 = Returns ba w2 /\
    Permutation (List.map anonymous ab) (List.map anonymous ba) /\
    (distinct_times (_collection Scenario.optical ++ _collection Scenario.radar)
     -> List.map anonymous ab = List.map anonymous ba).
Proof.
  apply (merge_commutes 0%nat 1%nat Scenario.w2 Scenario.optical Scenario.radar);
    reflexivity.
Defined.
